(** * ChatInterface: message list, turn controller and response acquirers

    A shallow embedding of the logic of [ChatInterface.tsx] (the variant
    answering with [simulateAIResponse]) and of its sibling variant that
    answers with [getAIResponse] through the hosted provider.  Both
    variants share [handleSendMessage] and [copyMessage] verbatim; they
    differ only in the acquirer [handleSendMessage] awaits.

    Modelling conventions
    - A JavaScript string is a [string]: a sequence of code units below
      256.  [trim] and [toLowerCase] are the built-ins restricted to that
      range.
    - [Date.now()] and [new Date()] read the clock of the world, an
      integer number of milliseconds.
    - An [async] function is cut at its [await]: each synchronous
      segment runs to completion, its state updates are queued and
      committed together when the segment ends.
    - [Math.random()] is an input, a rational number. *)

From Stdlib Require Import ZArith QArith Qround Bool List String Ascii Lia.
From Stdlib Require Import Sorted DecimalString DecimalPos DecimalZ Lqa.
From Stdlib Require Finite.
Import ListNotations.

Local Open Scope string_scope.
Local Open Scope Z_scope.

(* ------------------------------------------------------------------ *)
(** ** The string built-ins the component calls *)

Module JS.

(** [WhiteSpace] and [LineTerminator] code units below 256: TAB, LF, VT,
    FF, CR, SP and NBSP. *)
Definition isWhiteSpace (c : ascii) : bool :=
  let n := N_of_ascii c in
  ((9 <=? n) && (n <=? 13) || (n =? 32) || (n =? 160))%N.

Fixpoint trimStart (s : string) : string :=
  match s with
  | EmptyString => EmptyString
  | String c rest => if isWhiteSpace c then trimStart rest else s
  end.

(** Right to left: a white-space unit is dropped when everything after
    it has been dropped. *)
Fixpoint trimEnd (s : string) : string :=
  match s with
  | EmptyString => EmptyString
  | String c rest =>
      match trimEnd rest with
      | EmptyString => if isWhiteSpace c then EmptyString else String c EmptyString
      | kept => String c kept
      end
  end.

Definition trim (s : string) : string := trimEnd (trimStart s).

(** [!s] on a string: only the empty string is falsy. *)
Definition falsy (s : string) : bool :=
  match s with EmptyString => true | String _ _ => false end.

(** Unicode simple lower-casing below 256: A-Z, and the Latin-1 capitals
    U+00C0..U+00DE without the multiplication sign U+00D7. *)
Definition isUpper (c : ascii) : bool :=
  let n := N_of_ascii c in
  ((65 <=? n) && (n <=? 90) || (192 <=? n) && (n <=? 222) && negb (n =? 215))%N.

Definition lowerChar (c : ascii) : ascii :=
  if isUpper c then ascii_of_N (N_of_ascii c + 32) else c.

Fixpoint toLowerCase (s : string) : string :=
  match s with
  | EmptyString => EmptyString
  | String c rest => String (lowerChar c) (toLowerCase rest)
  end.

(** [s.includes(pat)]: [pat] occurs in [s] at some offset. *)
Fixpoint includes (s pat : string) : bool :=
  String.prefix pat s ||
  match s with
  | EmptyString => false
  | String _ rest => includes rest pat
  end.

(** [Number.prototype.toString] on an integer: decimal digits, a minus
    sign in front of a negative one. *)
Definition toString (n : Z) : string := NilZero.string_of_int (Z.to_int n).

(** [a || b] on strings. *)
Definition orElse (a b : string) : string := if falsy a then b else a.

End JS.

(* ------------------------------------------------------------------ *)
(** ** Settled promises *)

(** What a [catch] clause receives: an [Error] instance with its
    [message], or any other thrown value. *)
Inductive Thrown : Type :=
| ErrorObject (message : string)
| OtherValue (shown : string).

(** How an awaited [Promise<string>] settles. *)
Inductive Outcome : Type :=
| Resolved (text : string)
| Rejected (error : Thrown).

(* ------------------------------------------------------------------ *)
(** ** The simulated acquirer ([simulateAIResponse]) *)

Module Simulated.

Definition greeting : string :=
  "Hello! I'm Claude, your AI assistant. How can I help you today?".
Definition weatherReply : string :=
  "I don't have access to real-time weather data, but I'd be happy to help you find weather information or discuss climate topics in general.".
Definition searchReply : string :=
  "I understand you'd like me to search for information. In a real implementation, I would search the web for relevant results about your query.".
Definition thinkReply : string :=
  "Let me think deeply about this... In this mode, I would provide more thoughtful, analytical responses with deeper reasoning and consideration of multiple perspectives.".
Definition canvasReply : string :=
  "Canvas mode activated! In a real implementation, this would allow me to create visual content, diagrams, or interactive elements to help illustrate concepts.".
Definition voiceReply : string :=
  "I received your voice message! In a complete implementation, I would process the audio and respond accordingly.".

Definition responses : list string :=
  [ "That's an interesting question! I'd be happy to help you explore that topic further.";
    "I understand what you're asking about. Let me provide some insights on that.";
    "Great question! Here's what I can tell you about that subject.";
    "I appreciate you sharing that with me. Let me offer some thoughts on this matter.";
    "That's a thoughtful inquiry. I'll do my best to provide you with a helpful response." ].

Definition disclaimer : string :=
  " (This is a demo response - in a real implementation, I would provide more specific and helpful answers based on your actual question.)".

(** [xs[i]] for an integral index: [undefined] outside the array, which
    string concatenation prints as the word. *)
Definition element (xs : list string) (i : Z) : string :=
  if i <? 0 then "undefined" else nth (Z.to_nat i) xs "undefined".

(** [1500 + Math.random() * 2000], the argument of [setTimeout]. *)
Definition thinkingTime (rnd : Q) : Q := (1500 + rnd * 2000)%Q.

(** [responses[Math.floor(Math.random() * responses.length)]]. *)
Definition pick (rnd : Q) : string :=
  element responses (Qfloor (rnd * inject_Z (Z.of_nat (List.length responses)))).

(** The rule chain of the body, first match first. *)
Definition reply (userMessage : string) (rndPick : Q) : string :=
  if JS.includes (JS.toLowerCase userMessage) "hello"
     || JS.includes (JS.toLowerCase userMessage) "hi" then greeting
  else if JS.includes (JS.toLowerCase userMessage) "weather" then weatherReply
  else if JS.includes userMessage "[Search:" then searchReply
  else if JS.includes userMessage "[Think:" then thinkReply
  else if JS.includes userMessage "[Canvas:" then canvasReply
  else if JS.includes userMessage "[Voice message" then voiceReply
  else pick rndPick ++ disclaimer.

(** The promise [simulateAIResponse] returns: it stays pending for
    [wait] milliseconds, then settles as [settles].  [rndWait] is the
    first draw of [Math.random()], [rndPick] the one of the last
    branch. *)
Record Pending : Type := mkPending { wait : Q; settles : Outcome }.

Definition simulateAIResponse (userMessage : string) (rndWait rndPick : Q) : Pending :=
  {| wait := thinkingTime rndWait;
     settles := Resolved (reply userMessage rndPick) |}.

End Simulated.

(* ------------------------------------------------------------------ *)
(** ** The hosted acquirer ([getAIResponse]) *)

Module Hosted.

(** One [part] of the streamed response: [null]/[undefined], or an
    object whose [text] is absent or a string. *)
Inductive Part : Type :=
| Nullish
| Chunk (text : option string).

(** The async iterable [puter.ai.chat] hands back: it delivers parts and
    then ends, or throws on the way. *)
Inductive Stream : Type :=
| Ends
| Yields (part : Part) (rest : Stream)
| Breaks (error : Thrown).

(** What [await puter.ai.chat(userMessage, {model, stream: true})] does. *)
Inductive ChatCall : Type :=
| Throws (error : Thrown)
| Streams (response : Stream).

Definition emptyReply : string :=
  "I apologize, but I didn't receive a proper response. Please try again.".

(** [part?.text || ""]. *)
Definition textOf (part : Part) : string :=
  match part with
  | Nullish => ""
  | Chunk None => ""
  | Chunk (Some text) => JS.orElse text ""
  end.

(** The [for await] loop, [fullResponse] being the accumulator. *)
Fixpoint consume (fullResponse : string) (response : Stream) : Thrown + string :=
  match response with
  | Ends => inr fullResponse
  | Yields part rest => consume (fullResponse ++ textOf part) rest
  | Breaks error => inl error
  end.

(** [error instanceof Error ? error.message : 'Unknown error'], inside
    the template of the re-thrown [Error]. *)
Definition wrap (error : Thrown) : Thrown :=
  ErrorObject ("Failed to get AI response: " ++
               match error with
               | ErrorObject message => message
               | OtherValue _ => "Unknown error"
               end).

(** The result is the settled promise together with what the [catch]
    clause printed with [console.error]. *)
Definition getAIResponse (chat : string -> ChatCall) (userMessage : string)
  : Outcome * list (string * Thrown) :=
  let caught error := (Rejected (wrap error), [("AI API Error:", error)]) in
  match chat userMessage with
  | Throws error => caught error
  | Streams response =>
      match consume "" response with
      | inr fullResponse => (Resolved (JS.orElse fullResponse emptyReply), [])
      | inl error => caught error
      end
  end.

(** A stream that delivers the given parts, in order, and ends. *)
Definition delivering (parts : list Part) : Stream := fold_right Yields Ends parts.

End Hosted.

(* ------------------------------------------------------------------ *)
(** ** The component: state, queued updates, timers *)

(** A [File]; the component reads nothing of it but its [name]. *)
Record File : Type := mkFile { name : string }.

Inductive Sender : Type := user | ai.

Record Message : Type := mkMessage {
  id : string;
  content : string;
  sender : Sender;
  timestamp : Z;
  files : option (list File)
}.

(** The three [useState] cells. *)
Record State : Type := mkState {
  messages : list Message;
  isLoading : bool;
  copiedId : option string
}.

(** A call of a state setter queues an update. *)
Inductive Update : Type :=
| setMessages (f : list Message -> list Message)
| setIsLoading (value : bool)
| setCopiedId (value : option string).

Definition apply (u : Update) (s : State) : State :=
  match u with
  | setMessages f => mkState (f (messages s)) (isLoading s) (copiedId s)
  | setIsLoading b => mkState (messages s) b (copiedId s)
  | setCopiedId v => mkState (messages s) (isLoading s) v
  end.

(** The updates queued by one synchronous segment, applied in order. *)
Definition commit (queue : list Update) (s : State) : State :=
  fold_left (fun acc u => apply u acc) queue s.

(** The component in its environment: the clock, the committed state,
    the due times of the pending [setTimeout] callbacks (every one of
    them is [() => setCopiedId(null)]) and the lines of [console.error]. *)
Record World : Type := mkWorld {
  now : Z;
  ui : State;
  timers : list Z;
  console : list (string * Thrown)
}.

Definition render (queue : list Update) (w : World) : World :=
  mkWorld (now w) (commit queue (ui w)) (timers w) (console w).

Definition console_error (label : string) (value : Thrown) (w : World) : World :=
  mkWorld (now w) (ui w) (timers w) (console w ++ [(label, value)])%list.

(** [setTimeout(callback, delay)]: appended, none is ever removed but by
    firing (the component never calls [clearTimeout]). *)
Definition setTimeout (delay : Z) (w : World) : World :=
  mkWorld (now w) (ui w) (timers w ++ [now w + delay])%list (console w).

Definition due (t : Z) (at_ : Z) : bool := at_ <=? t.

(** The clock reaches [t]: every callback that has come due runs. *)
Definition advance_to (t : Z) (w : World) : World :=
  mkWorld t
          (fold_left (fun s _ => commit [setCopiedId None] s)
                     (filter (due t) (timers w)) (ui w))
          (filter (fun at_ => negb (due t at_)) (timers w))
          (console w).

(** The component as mounted at instant [t]. *)
Definition mount (t : Z) : World := mkWorld t (mkState [] false None) [] [].

(* ------------------------------------------------------------------ *)
(** ** [handleSendMessage] *)

Definition fallback : string :=
  "I apologize, but I encountered an error while processing your message. Please try again.".

(** [!files || files.length === 0]. *)
Definition noFiles (files : option (list File)) : bool :=
  match files with
  | None => true
  | Some fs => Nat.eqb (List.length fs) 0
  end.

(** The segment before the [await]: [None] is the early [return] of the
    guard, otherwise the world as it stands while the acquirer runs. *)
Definition handleSendMessage_start
    (content : string) (files : option (list File)) (w : World) : option World :=
  if JS.falsy (JS.trim content) && noFiles files then None
  else
    let userMessage :=
      {| id := JS.toString (now w);
         content := content;
         sender := user;
         timestamp := now w;
         files := files |} in
    Some (render [ setMessages (fun prev => (prev ++ [userMessage])%list);
                   setIsLoading true ] w).

(** The segment after the [await]: the [try] body on a resolved promise,
    the [catch] clause on a rejected one, the [finally] clause after
    either. *)
Definition handleSendMessage_resume (settled : Outcome) (w : World) : World :=
  match settled with
  | Resolved aiResponse =>
      let aiMessage :=
        {| id := JS.toString (now w + 1);
           content := aiResponse;
           sender := ai;
           timestamp := now w;
           files := None |} in
      render [ setMessages (fun prev => (prev ++ [aiMessage])%list);
               setIsLoading false ] w
  | Rejected error =>
      let w' := console_error "Error generating AI response:" error w in
      let errorMessage :=
        {| id := JS.toString (now w' + 1);
           content := fallback;
           sender := ai;
           timestamp := now w';
           files := None |} in
      render [ setMessages (fun prev => (prev ++ [errorMessage])%list);
               setIsLoading false ] w'
  end.

(* ------------------------------------------------------------------ *)
(** ** [copyMessage] *)

(** The function from the point where [await navigator.clipboard
    .writeText(content)] settles: [failure] is [None] when it resolved,
    the value it rejected with otherwise.  Nothing of the world is
    touched before that point. *)
Definition copyMessage (content messageId : string) (failure : option Thrown)
    (w : World) : World :=
  match failure with
  | None => setTimeout 2000 (render [ setCopiedId (Some messageId) ] w)
  | Some error => console_error "Failed to copy message:" error w
  end.

(* ------------------------------------------------------------------ *)
(** ** Runs of the event loop *)

(** What can run while a turn is suspended at its [await], the input box
    being disabled: the clipboard write of a [copyMessage] call settles,
    or nothing but timers. *)
Inductive Background : Type :=
| ClipboardSettles (content messageId : string) (failure : option Thrown)
| TimePasses.

Definition perform (b : Background) (w : World) : World :=
  match b with
  | ClipboardSettles content messageId failure => copyMessage content messageId failure w
  | TimePasses => w
  end.

(** A task together with the instant the event loop runs it. *)
Definition background (tasks : list (Z * Background)) (w : World) : World :=
  fold_left (fun acc task => perform (snd task) (advance_to (fst task) acc)) tasks w.

(** One call of [handleSendMessage] with its environment: the instant of
    the call, what runs during the [await], the instant the acquirer
    settles and how. *)
Record Turn : Type := mkTurn {
  text : string;
  attached : option (list File);
  sentAt : Z;
  meanwhile : list (Z * Background);
  settledAt : Z;
  settled : Outcome
}.

(** The whole call, from the world at the instant of the call to the
    world when the function is over. *)
Definition handleSendMessage (turn : Turn) (w : World) : World :=
  match handleSendMessage_start (text turn) (attached turn) w with
  | None => w
  | Some suspended =>
      handleSendMessage_resume (settled turn)
        (advance_to (settledAt turn) (background (meanwhile turn) suspended))
  end.

(** Calls one after the other, each one over before the next. *)
Definition session (turns : list Turn) (w : World) : World :=
  fold_left (fun acc turn => handleSendMessage turn (advance_to (sentAt turn) acc)) turns w.

(** The two variants of the component differ in the promise awaited.
    In a run of the simulated variant [done] is no earlier than [sent]
    plus the [wait] of the promise; the definitions take every instant
    as the environment gives it. *)
Definition simulatedTurn (content : string) (files : option (list File))
    (rndWait rndPick : Q) (sent : Z) (during : list (Z * Background)) (done : Z) : Turn :=
  mkTurn content files sent during done
         (Simulated.settles (Simulated.simulateAIResponse content rndWait rndPick)).

Definition hostedTurn (chat : string -> Hosted.ChatCall)
    (content : string) (files : option (list File))
    (sent : Z) (during : list (Z * Background)) (done : Z) : Turn :=
  mkTurn content files sent during done (fst (Hosted.getAIResponse chat content)).


(* ------------------------------------------------------------------ *)
(** ** Vocabulary of the properties *)

(** [pat] occurs in [s]. *)
Definition contains (s pat : string) : Prop :=
  exists before after, s = before ++ pat ++ after.

(** The capital of a small ASCII letter. *)
Definition capital (c : ascii) : ascii := ascii_of_N (N_of_ascii c - 32).

(** [word] spells the lower-case [pat], each letter small or capital. *)
Fixpoint spells (word pat : string) : Prop :=
  match word, pat with
  | EmptyString, EmptyString => True
  | String c word', String p pat' => (c = p \/ c = capital p) /\ spells word' pat'
  | _, _ => False
  end.

Definition containsAnyCase (s pat : string) : Prop :=
  exists before word after, s = before ++ word ++ after /\ spells word pat.

(** The text payload of a fragment, a missing one counting as empty. *)
Definition payload (part : Hosted.Part) : string :=
  match part with
  | Hosted.Chunk (Some text) => text
  | _ => ""
  end.

(** The payloads joined in arrival order. *)
Definition concatenation (parts : list Hosted.Part) : string :=
  fold_right (fun part joined => payload part ++ joined) "" parts.

(** A call that gets past the guard: the trimmed text is not empty, or
    there is at least one file. *)
Definition accepted (content : string) (files : option (list File)) : Prop :=
  JS.trim content <> "" \/ exists fs, files = Some fs /\ fs <> [].

(** A call the guard turns away. *)
Definition blank (content : string) (files : option (list File)) : Prop :=
  JS.trim content = "" /\ (files = None \/ files = Some []).

(** The instants of a session in the order the code reads the clock. *)
Definition instants (turns : list Turn) : list Z :=
  flat_map (fun turn => [sentAt turn; settledAt turn]) turns.

(** Two successful [copyMessage] calls whose clipboard writes settle at
    [t1] and [t2]. *)
Definition twoCopies (t1 t2 : Z) (c1 id1 c2 id2 : string) (w : World) : World :=
  background [ (t1, ClipboardSettles c1 id1 None);
               (t2, ClipboardSettles c2 id2 None) ] w.

(** The part of the state a clipboard task or a timer cannot change. *)
Definition turnView (w : World) : list Message * bool :=
  (messages (ui w), isLoading (ui w)).

(** The message the first segment appends. *)
Definition userMessageOf (content : string) (files : option (list File)) (w : World) : Message :=
  mkMessage (JS.toString (now w)) content user (now w) files.

(** The message the second segment appends. *)
Definition replyMessageOf (settled : Outcome) (w : World) : Message :=
  mkMessage (JS.toString (now w + 1))
            match settled with Resolved aiResponse => aiResponse | Rejected _ => fallback end
            ai (now w) None.

(* ------------------------------------------------------------------ *)
(** ** What the component draws *)

(** The decisions of the JSX the component returns, class names and
    fixed texts left out.  Each field of [Bubble] is one conditional of
    the body of [messages.map]. *)
Inductive Justify : Type := justifyEnd | justifyStart.

Inductive Icon : Type := checkIcon | copyIcon.

Record Bubble : Type := mkBubble {
  key : string;
  justify : Justify;
  botAvatar : bool;
  fileChips : option (list string);
  shown : string;
  stamp : Z;
  icon : Icon;
  userAvatar : bool
}.

(** [copiedId === message.id]; [null] equals no string. *)
Definition isCopied (copied : option string) (message : Message) : bool :=
  match copied with
  | Some c => String.eqb c (id message)
  | None => false
  end.

(** [message.files && message.files.length > 0 && ...map(file => file.name)]. *)
Definition chipsOf (message : Message) : option (list string) :=
  match files message with
  | Some (f :: fs) => Some (map name (f :: fs))
  | _ => None
  end.

Definition bubble (copied : option string) (message : Message) : Bubble :=
  {| key := id message;
     justify := match sender message with user => justifyEnd | ai => justifyStart end;
     botAvatar := match sender message with ai => true | user => false end;
     fileChips := chipsOf message;
     shown := content message;
     stamp := timestamp message;
     icon := if isCopied copied message then checkIcon else copyIcon;
     userAvatar := match sender message with user => true | ai => false end |}.

(** [messages.length === 0 ? (the invitation) : messages.map(...)]. *)
Inductive Thread : Type :=
| Invitation
| Bubbles (rows : list Bubble).

(** The thread, the "Thinking..." row ([isLoading && ...]) and the
    [isLoading] prop handed to [PromptInputBox]. *)
Record Screen : Type := mkScreen {
  thread : Thread;
  thinking : bool;
  inputLoading : bool
}.

Definition draw (s : State) : Screen :=
  {| thread := match messages s with
               | [] => Invitation
               | _ => Bubbles (map (bubble (copiedId s)) (messages s))
               end;
     thinking := isLoading s;
     inputLoading := isLoading s |}.

(** [onClick={() => copyMessage(message.content, message.id)}], from the
    point where the clipboard write settles. *)
Definition onCopyClick (message : Message) (failure : option Thrown) (w : World) : World :=
  copyMessage (content message) (id message) failure w.

(* ------------------------------------------------------------------ *)
(** ** More vocabulary *)

(** The texts [simulateAIResponse] resolves to. *)
Definition cannedReplies : list string :=
  ([ Simulated.greeting; Simulated.weatherReply; Simulated.searchReply;
     Simulated.canvasReply; Simulated.voiceReply ]
   ++ map (fun generic => (generic ++ Simulated.disclaimer)%string) Simulated.responses)%list.

(** The guard of [handleSendMessage] on a turn. *)
Definition turnedAway (turn : Turn) : bool :=
  JS.falsy (JS.trim (text turn)) && noFiles (attached turn).

(** The two messages of a turn the guard lets through, none otherwise. *)
Definition exchange (turn : Turn) : list Message :=
  if turnedAway turn then []
  else [ mkMessage (JS.toString (sentAt turn)) (text turn) user (sentAt turn) (attached turn);
         mkMessage (JS.toString (settledAt turn + 1))
                   match settled turn with
                   | Resolved aiResponse => aiResponse
                   | Rejected _ => fallback
                   end
                   ai (settledAt turn) None ].

(** The numbers the ids of a session are printed from. *)
Definition idNumbers (turns : list Turn) : list Z :=
  flat_map (fun turn => [sentAt turn; settledAt turn + 1]) turns.

(** Two calls that overlap: the second is made, at [t2], while the first
    is awaited; the first settles at [t3], the second at [t4]. *)
Definition overlapped (words1 : string) (files1 : option (list File)) (r1 : Outcome)
    (words2 : string) (files2 : option (list File)) (r2 : Outcome)
    (t2 t3 t4 : Z) (w : World) : option (World * World * World) :=
  match handleSendMessage_start words1 files1 w with
  | None => None
  | Some first =>
      match handleSendMessage_start words2 files2 (advance_to t2 first) with
      | None => None
      | Some both =>
          let firstDone := handleSendMessage_resume r1 (advance_to t3 both) in
          Some (both, firstDone, handleSendMessage_resume r2 (advance_to t4 firstDone))
      end
  end.

(** One thing the event loop runs: a whole call of [handleSendMessage]
    (with what runs during its [await]), or a clipboard task at its
    instant. *)
Inductive Step : Type :=
| Call (turn : Turn)
| Task (at_ : Z) (b : Background).

(** Calls and clipboard tasks in any order, from left to right. *)
Definition run (steps : list Step) (w : World) : World :=
  fold_left (fun acc step =>
               match step with
               | Call turn => handleSendMessage turn (advance_to (sentAt turn) acc)
               | Task at_ b => perform b (advance_to at_ acc)
               end) steps w.

(** The copied mark is off, or a reset of it is pending. *)
Definition resettable (w : World) : Prop := copiedId (ui w) = None \/ timers w <> [].

(** What the event loop can run while one call of [handleSendMessage] is
    suspended at its [await].  The guard does not read [isLoading], so
    nothing in the component keeps other calls out: another call runs
    its first segment ([Starts]), a call that is being awaited runs its
    second segment because its acquirer has settled ([Settles]), or a
    clipboard task or nothing but timers run ([Runs]). *)
Inductive Event : Type :=
| Starts (words : string) (files : option (list File))
| Settles (settled : Outcome)
| Runs (b : Background).

Definition occur (e : Event) (w : World) : World :=
  match e with
  | Starts words files =>
      match handleSendMessage_start words files w with
      | Some suspended => suspended
      | None => w
      end
  | Settles settled => handleSendMessage_resume settled w
  | Runs b => perform b w
  end.

(** Events together with the instants the event loop runs them at. *)
Definition loop (events : list (Z * Event)) (w : World) : World :=
  fold_left (fun acc event => occur (snd event) (advance_to (fst event) acc)) events w.

(** No second segment of any call runs among [events]: no answer to
    another call arrives. *)
Definition noAnswer (events : list (Z * Event)) : Prop :=
  forall t settled, ~ In (t, Settles settled) events.

(** The clipboard tasks and timers of a turn as events. *)
Definition quiet (tasks : list (Z * Background)) : list (Z * Event) :=
  map (fun task => (fst task, Runs (snd task))) tasks.

(* ------------------------------------------------------------------ *)
(** ** Runs on concrete inputs *)

Example simulate_hello :
  Simulated.reply "Well, HeLLo there" 0 = Simulated.greeting.
Proof. reflexivity. Qed.

Example simulate_search :
  Simulated.reply "[Search: rust borrow checker]" 0 = Simulated.searchReply.
Proof. reflexivity. Qed.

Example simulate_generic :
  Simulated.reply "tell me a joke" (7 # 10) =
  ("I appreciate you sharing that with me. Let me offer some thoughts on this matter."
     ++ Simulated.disclaimer)%string.
Proof. reflexivity. Qed.

Example trim_example : JS.trim "  a b  " = "a b".
Proof. reflexivity. Qed.

Example toString_example : JS.toString 1700000000000 = "1700000000000".
Proof. reflexivity. Qed.

Example hosted_stream :
  fst (Hosted.getAIResponse
         (fun _ => Hosted.Streams
            (Hosted.delivering
               [Hosted.Chunk (Some "Hel"); Hosted.Nullish; Hosted.Chunk None;
                Hosted.Chunk (Some ""); Hosted.Chunk (Some "lo")]))
         "hey")
  = Resolved "Hello".
Proof. reflexivity. Qed.

Example hosted_throw :
  fst (Hosted.getAIResponse (fun _ => Hosted.Throws (ErrorObject "401")) "hey")
  = Rejected (ErrorObject "Failed to get AI response: 401").
Proof. reflexivity. Qed.

Example one_turn :
  map (fun m => (id m, sender m, content m))
      (messages (ui (session
                       [simulatedTurn "  hello " None (1#2) 0 1000 [] 3500]
                       (mount 0))))
  = [ ("1000", user, "  hello ");
      ("3501", ai, Simulated.greeting) ].
Proof. reflexivity. Qed.

Example blank_turn :
  handleSendMessage (simulatedTurn "   " (Some []) (1#2) 0 1000 [] 3500) (mount 0) = mount 0.
Proof. reflexivity. Qed.

(* ------------------------------------------------------------------ *)
(** ** Facts about the string built-ins *)

Section StringFacts.

Lemma append_empty_r (s : string) : s ++ "" = s.
Proof. induction s as [|c s IH]; simpl; [reflexivity | now rewrite IH]. Qed.

Lemma append_assoc (a b c : string) : (a ++ b) ++ c = a ++ (b ++ c).
Proof. induction a as [|x a IH]; simpl; [reflexivity | now rewrite IH]. Qed.

Lemma prefix_append (pat rest : string) : String.prefix pat (pat ++ rest) = true.
Proof.
  induction pat as [|c pat IH]; simpl.
  - now destruct rest.
  - destruct (ascii_dec c c) as [_|ne]; [exact IH | now elim ne].
Qed.

Lemma prefix_split (pat s : string) :
  String.prefix pat s = true -> exists rest, s = pat ++ rest.
Proof.
  revert s; induction pat as [|c pat IH]; intros s H.
  - now exists s.
  - destruct s as [|d s]; simpl in H; [discriminate|].
    destruct (ascii_dec c d) as [->|_]; [|discriminate].
    destruct (IH s H) as [rest ->]. now exists rest.
Qed.

Lemma includes_here (s pat : string) :
  String.prefix pat s = true -> JS.includes s pat = true.
Proof. intro H. destruct s; cbn [JS.includes]; rewrite H; reflexivity. Qed.

Lemma includes_later (before s pat : string) :
  JS.includes s pat = true -> JS.includes (before ++ s) pat = true.
Proof.
  intro H. induction before as [|c before IH]; [exact H|].
  cbn [append JS.includes]. rewrite IH. apply orb_true_r.
Qed.

(** [includes] is substring containment. *)
Lemma includes_contains (s pat : string) :
  JS.includes s pat = true <-> contains s pat.
Proof.
  split.
  - induction s as [|c s IH]; cbn [JS.includes]; intro H.
    + rewrite orb_false_r in H. destruct (prefix_split _ _ H) as [rest E].
      now exists "", rest.
    + apply orb_true_iff in H as [H|H].
      * destruct (prefix_split _ _ H) as [rest E]. now exists "", rest.
      * destruct (IH H) as (before & after & ->).
        now exists (String c before), after.
  - intros (before & after & ->).
    apply includes_later, includes_here, prefix_append.
Qed.

Lemma toLowerCase_append (a b : string) :
  JS.toLowerCase (a ++ b) = JS.toLowerCase a ++ JS.toLowerCase b.
Proof. induction a as [|c a IH]; simpl; [reflexivity | now rewrite IH]. Qed.

(** Whatever the mix of cases, lower-casing gives back the word. *)
Lemma spells_hello (word : string) :
  spells word "hello" -> JS.toLowerCase word = "hello".
Proof.
  do 5 (destruct word as [|? word]; simpl; [tauto|]).
  destruct word; simpl; [|tauto].
  intros ([->| ->] & [->| ->] & [->| ->] & [->| ->] & [->| ->] & _); reflexivity.
Qed.

Lemma orElse_empty (s : string) : JS.orElse s "" = s.
Proof. now destruct s. Qed.

End StringFacts.

(* ------------------------------------------------------------------ *)
(** ** The acquirers *)

Section Acquirers.

Lemma textOf_payload (part : Hosted.Part) : Hosted.textOf part = payload part.
Proof. destruct part as [|[text|]]; simpl; auto using orElse_empty. Qed.

(** The accumulating loop computes the right-nested concatenation. *)
Lemma consume_delivering (parts : list Hosted.Part) (acc : string) :
  Hosted.consume acc (Hosted.delivering parts) = inr (acc ++ concatenation parts).
Proof.
  revert acc; induction parts as [|part parts IH]; intro acc; simpl.
  - now rewrite append_empty_r.
  - now rewrite IH, textOf_payload, append_assoc.
Qed.

Lemma pick_in_range (rnd : Q) :
  (0 <= rnd)%Q -> (rnd < 1)%Q -> In (Simulated.pick rnd) Simulated.responses.
Proof.
  intros lo hi. unfold Simulated.pick.
  set (x := (rnd * inject_Z (Z.of_nat (List.length Simulated.responses)))%Q).
  assert (0 <= x)%Q as x_lo.
  { unfold x. apply Qmult_le_0_compat; [exact lo | discriminate]. }
  assert (x < 5)%Q as x_hi.
  { unfold x. change (inject_Z (Z.of_nat (List.length Simulated.responses))) with (5 # 1).
    setoid_replace (5 : Q) with (1 * (5 # 1))%Q by reflexivity.
    apply Qmult_lt_compat_r; [reflexivity | exact hi]. }
  assert (0 <= Qfloor x) as f_lo.
  { rewrite <- (Qfloor_Z 0). now apply Qfloor_resp_le. }
  assert (Qfloor x < 5) as f_hi.
  { rewrite Zlt_Qlt. eapply Qle_lt_trans; [apply Qfloor_le | exact x_hi]. }
  assert (Qfloor x = 0 \/ Qfloor x = 1 \/ Qfloor x = 2 \/ Qfloor x = 3 \/ Qfloor x = 4)
    as cases by lia.
  destruct cases as [-> | [-> | [-> | [-> | ->]]]]; simpl; tauto.
Qed.

End Acquirers.

Section AcquirerContracts.

Lemma not_contains (s pat : string) : ~ contains s pat -> JS.includes s pat = false.
Proof.
  intro H. destruct (JS.includes s pat) eqn:E; [|reflexivity].
  elim H. now apply includes_contains.
Qed.

Lemma any_case_hello (userMessage : string) :
  containsAnyCase userMessage "hello" ->
  JS.includes (JS.toLowerCase userMessage) "hello" = true.
Proof.
  intros (before & word & after & -> & H).
  rewrite !toLowerCase_append, (spells_hello _ H).
  apply includes_contains. now exists (JS.toLowerCase before), (JS.toLowerCase after).
Qed.

End AcquirerContracts.

(** C7, as the claim states it, fails: the provider call throws a value
    that is no [Error] (here the string "quota exceeded").  The promise
    is rejected with the message "Failed to get AI response: Unknown
    error", in which the text of the value thrown does not occur: the
    [catch] clause reads [error.message] only under [error instanceof
    Error]. *)
Lemma thrown_value_is_not_wrapped :
  fst (Hosted.getAIResponse (fun _ => Hosted.Throws (OtherValue "quota exceeded")) "hey")
  = Rejected (ErrorObject "Failed to get AI response: Unknown error")
  /\ ~ contains "Failed to get AI response: Unknown error" "quota exceeded".
Proof.
  split; [reflexivity|].
  intro H. apply includes_contains in H. vm_compute in H. discriminate.
Qed.

(** C7 (amended). [getAIResponse]: when the provider's stream delivers
    its fragments and ends, the promise resolves to the payloads joined
    in arrival order (a missing or empty payload adding nothing), or to
    the fixed sentence [emptyReply] when that is the empty string; when
    the provider call throws, the promise is rejected with an [Error]:
    its message is the prefix "Failed to get AI response: " followed by
    the message of the value thrown when that is an [Error], and
    "Failed to get AI response: Unknown error" when it is any other
    value. *)
Theorem getAIResponse_contract (chat : string -> Hosted.ChatCall) (userMessage : string) :
  (forall parts,
      chat userMessage = Hosted.Streams (Hosted.delivering parts) ->
      (concatenation parts <> "" ->
       fst (Hosted.getAIResponse chat userMessage) = Resolved (concatenation parts))
      /\ (concatenation parts = "" ->
          fst (Hosted.getAIResponse chat userMessage) = Resolved Hosted.emptyReply))
  /\ (forall message,
         chat userMessage = Hosted.Throws (ErrorObject message) ->
         fst (Hosted.getAIResponse chat userMessage)
         = Rejected (ErrorObject ("Failed to get AI response: " ++ message)))
  /\ (forall shown,
         chat userMessage = Hosted.Throws (OtherValue shown) ->
         fst (Hosted.getAIResponse chat userMessage)
         = Rejected (ErrorObject "Failed to get AI response: Unknown error")).
Proof.
  split; [|split].
  - intros parts E. unfold Hosted.getAIResponse.
    rewrite E, consume_delivering. cbn [append fst].
    split; intro H.
    + destruct (concatenation parts); [now elim H | reflexivity].
    + now rewrite H.
  - intros message E. unfold Hosted.getAIResponse. now rewrite E.
  - intros shown E. unfold Hosted.getAIResponse. now rewrite E.
Qed.

Lemma getAIResponse_contract_witness :
  fst (Hosted.getAIResponse
         (fun _ => Hosted.Streams
            (Hosted.delivering [Hosted.Chunk (Some "Hi"); Hosted.Nullish; Hosted.Chunk (Some "!")]))
         "hey") = Resolved "Hi!"
  /\ fst (Hosted.getAIResponse
            (fun _ => Hosted.Streams (Hosted.delivering [Hosted.Chunk None; Hosted.Chunk (Some "")]))
            "hey") = Resolved Hosted.emptyReply
  /\ fst (Hosted.getAIResponse (fun _ => Hosted.Throws (ErrorObject "quota exceeded")) "hey")
     = Rejected (ErrorObject "Failed to get AI response: quota exceeded")
  /\ fst (Hosted.getAIResponse (fun _ => Hosted.Throws (OtherValue "{ code: 429 }")) "hey")
     = Rejected (ErrorObject "Failed to get AI response: Unknown error").
Proof.
  split; [|split; [|split]].
  - apply (proj1 (getAIResponse_contract _ "hey")
                 [Hosted.Chunk (Some "Hi"); Hosted.Nullish; Hosted.Chunk (Some "!")]
                 eq_refl).
    discriminate.
  - apply (proj1 (getAIResponse_contract _ "hey")
                 [Hosted.Chunk None; Hosted.Chunk (Some "")] eq_refl).
    reflexivity.
  - apply (proj1 (proj2 (getAIResponse_contract
                           (fun _ => Hosted.Throws (ErrorObject "quota exceeded")) "hey"))
                 "quota exceeded" eq_refl).
  - apply (proj2 (proj2 (getAIResponse_contract
                           (fun _ => Hosted.Throws (OtherValue "{ code: 429 }")) "hey"))
                 "{ code: 429 }" eq_refl).
Defined.

(** C8, as the claim states it, fails: this input holds the literal
    marker "[Search:" and is answered with the weather reply, because the
    weather rule stands before the search rule. *)
Lemma search_marker_shadowed :
  contains "[Search: weather in Oslo]" "[Search:"
  /\ Simulated.settles (Simulated.simulateAIResponse "[Search: weather in Oslo]" 0 0)
     <> Resolved Simulated.searchReply.
Proof.
  split.
  - now exists "", " weather in Oslo]".
  - vm_compute. discriminate.
Qed.

(** C8 (amended). [simulateAIResponse] never rejects.  An input holding
    "hello" in any mix of cases resolves to the greeting.  An input
    holding the literal "[Search:" resolves to the search reply provided
    no earlier rule matches, that is, its lower-cased form holds none of
    "hello", "hi" and "weather".  An input no rule matches resolves, for
    a draw of [Math.random()] in [0, 1), to one of the five generic
    acknowledgements followed by the disclaimer. *)
Theorem simulated_rules_first_match (userMessage : string) (rndWait rndPick : Q) :
  let promise := Simulated.simulateAIResponse userMessage rndWait rndPick in
  (exists text, Simulated.settles promise = Resolved text)
  /\ (containsAnyCase userMessage "hello" ->
      Simulated.settles promise = Resolved Simulated.greeting)
  /\ (contains userMessage "[Search:" ->
      ~ contains (JS.toLowerCase userMessage) "hello" ->
      ~ contains (JS.toLowerCase userMessage) "hi" ->
      ~ contains (JS.toLowerCase userMessage) "weather" ->
      Simulated.settles promise = Resolved Simulated.searchReply)
  /\ (~ contains (JS.toLowerCase userMessage) "hello" ->
      ~ contains (JS.toLowerCase userMessage) "hi" ->
      ~ contains (JS.toLowerCase userMessage) "weather" ->
      ~ contains userMessage "[Search:" ->
      ~ contains userMessage "[Think:" ->
      ~ contains userMessage "[Canvas:" ->
      ~ contains userMessage "[Voice message" ->
      (0 <= rndPick)%Q -> (rndPick < 1)%Q ->
      exists generic,
        In generic Simulated.responses
        /\ Simulated.settles promise = Resolved (generic ++ Simulated.disclaimer)).
Proof.
  cbn zeta. unfold Simulated.simulateAIResponse; cbn [Simulated.settles].
  split; [|split; [|split]].
  - eexists; reflexivity.
  - intro H. unfold Simulated.reply. now rewrite (any_case_hello _ H).
  - intros S H1 H2 H3. apply includes_contains in S. unfold Simulated.reply.
    now rewrite (not_contains _ _ H1), (not_contains _ _ H2), (not_contains _ _ H3), S.
  - intros H1 H2 H3 H4 H5 H6 H7 lo hi. unfold Simulated.reply.
    rewrite (not_contains _ _ H1), (not_contains _ _ H2), (not_contains _ _ H3),
      (not_contains _ _ H4), (not_contains _ _ H5), (not_contains _ _ H6),
      (not_contains _ _ H7).
    cbn [orb]. exists (Simulated.pick rndPick). split; [now apply pick_in_range | reflexivity].
Qed.

(** Closes [~ contains s pat] on literals by running [includes]. *)
Ltac absent :=
  let H := fresh "H" in
  intro H; apply includes_contains in H; vm_compute in H; discriminate H.

Lemma simulated_rules_first_match_witness :
  Simulated.settles (Simulated.simulateAIResponse "Oh HeLLo world" 0 0)
  = Resolved Simulated.greeting
  /\ Simulated.settles (Simulated.simulateAIResponse "[Search: rust lang]" 0 0)
     = Resolved Simulated.searchReply
  /\ exists generic,
       In generic Simulated.responses
       /\ Simulated.settles (Simulated.simulateAIResponse "tell me a joke" 0 (7 # 10))
          = Resolved (generic ++ Simulated.disclaimer).
Proof.
  split; [|split].
  - apply (proj1 (proj2 (simulated_rules_first_match "Oh HeLLo world" 0 0))).
    exists "Oh ", "HeLLo", " world". split; [reflexivity|].
    simpl. repeat split; auto.
  - apply (proj1 (proj2 (proj2 (simulated_rules_first_match "[Search: rust lang]" 0 0)))).
    + now exists "", " rust lang]".
    + absent.
    + absent.
    + absent.
  - apply (proj2 (proj2 (proj2 (simulated_rules_first_match "tell me a joke" 0 (7 # 10)))));
      try absent.
    + discriminate.
    + reflexivity.
Defined.

(** C10. Every input whose lower-cased form holds "hi" anywhere, inside a
    word as well ("this", "history"), resolves to the greeting: the
    first rule tests for the two letters, not for the word. *)
Theorem hi_substring_greets (userMessage : string) (rndWait rndPick : Q) :
  contains (JS.toLowerCase userMessage) "hi" ->
  Simulated.settles (Simulated.simulateAIResponse userMessage rndWait rndPick)
  = Resolved Simulated.greeting.
Proof.
  intro H. apply includes_contains in H.
  unfold Simulated.simulateAIResponse, Simulated.reply; cbn [Simulated.settles].
  now rewrite H, orb_true_r.
Qed.

Lemma hi_substring_greets_witness :
  contains (JS.toLowerCase "Tell me the History of Rome") "hi"
  /\ Simulated.settles (Simulated.simulateAIResponse "Tell me the History of Rome" 0 0)
     = Resolved Simulated.greeting
  /\ Simulated.settles (Simulated.simulateAIResponse "what is this" 0 0)
     = Resolved Simulated.greeting.
Proof.
  assert (contains (JS.toLowerCase "Tell me the History of Rome") "hi") as H1
      by now exists "tell me the ", "story of rome".
  assert (contains (JS.toLowerCase "what is this") "hi") as H2
      by now exists "what is t", "s".
  split; [exact H1 | split].
  - exact (hi_substring_greets "Tell me the History of Rome" 0 0 H1).
  - exact (hi_substring_greets "what is this" 0 0 H2).
Defined.

(* ------------------------------------------------------------------ *)
(** ** What leaves the transcript and the loading flag alone *)

Section Frame.

Lemma timers_keep_turnView (fired : list Z) (s : State) :
  let s' := fold_left (fun acc (_ : Z) => commit [setCopiedId None] acc) fired s in
  messages s' = messages s /\ isLoading s' = isLoading s.
Proof.
  revert s; induction fired as [|t fired IH]; intro s; simpl; [tauto|].
  destruct (IH (commit [setCopiedId None] s)) as [M L]. simpl in M, L. tauto.
Qed.

Lemma advance_to_turnView (t : Z) (w : World) :
  turnView (advance_to t w) = turnView w.
Proof.
  unfold turnView, advance_to; cbn [ui].
  destruct (timers_keep_turnView (filter (due t) (timers w)) (ui w)) as [-> ->].
  reflexivity.
Qed.

Lemma advance_to_now (t : Z) (w : World) : now (advance_to t w) = t.
Proof. reflexivity. Qed.

Lemma copyMessage_turnView (content messageId : string) (failure : option Thrown) (w : World) :
  turnView (copyMessage content messageId failure w) = turnView w.
Proof. destruct failure; reflexivity. Qed.

Lemma perform_turnView (b : Background) (w : World) : turnView (perform b w) = turnView w.
Proof. destruct b; [apply copyMessage_turnView | reflexivity]. Qed.

Lemma background_turnView (tasks : list (Z * Background)) (w : World) :
  turnView (background tasks w) = turnView w.
Proof.
  revert w; induction tasks as [|task tasks IH]; intro w; [reflexivity|].
  unfold background in *; cbn [fold_left]. rewrite IH.
  now rewrite perform_turnView, advance_to_turnView.
Qed.

Lemma turnView_messages (w w' : World) :
  turnView w = turnView w' -> messages (ui w) = messages (ui w').
Proof. unfold turnView; congruence. Qed.

Lemma turnView_isLoading (w w' : World) :
  turnView w = turnView w' -> isLoading (ui w) = isLoading (ui w').
Proof. unfold turnView; congruence. Qed.

End Frame.

(* ------------------------------------------------------------------ *)
(** ** The guard and the two segments of [handleSendMessage] *)

Section Segments.

Lemma guard_accepted (content : string) (files : option (list File)) :
  accepted content files -> JS.falsy (JS.trim content) && noFiles files = false.
Proof.
  intros [H | (fs & -> & H)].
  - destruct (JS.trim content); [now elim H | reflexivity].
  - destruct fs; [now elim H | apply andb_false_r].
Qed.

Lemma guard_blank (content : string) (files : option (list File)) :
  blank content files -> JS.falsy (JS.trim content) && noFiles files = true.
Proof. intros [-> [-> | ->]]; reflexivity. Qed.

Lemma start_accepted (content : string) (files : option (list File)) (w : World) :
  accepted content files ->
  handleSendMessage_start content files w
  = Some (mkWorld (now w)
                  (mkState (messages (ui w) ++ [userMessageOf content files w])%list
                           true (copiedId (ui w)))
                  (timers w) (console w)).
Proof.
  intro H. unfold handleSendMessage_start. now rewrite (guard_accepted _ _ H).
Qed.

Lemma start_blank (content : string) (files : option (list File)) (w : World) :
  blank content files -> handleSendMessage_start content files w = None.
Proof.
  intro H. unfold handleSendMessage_start. now rewrite (guard_blank _ _ H).
Qed.

Lemma resume_ui (settled : Outcome) (w : World) :
  ui (handleSendMessage_resume settled w)
  = mkState (messages (ui w) ++ [replyMessageOf settled w])%list false (copiedId (ui w)).
Proof. destruct settled; reflexivity. Qed.

Lemma resume_now (settled : Outcome) (w : World) :
  now (handleSendMessage_resume settled w) = now w.
Proof. destruct settled; reflexivity. Qed.

(** The transcript after a whole accepted call. *)
Lemma handleSendMessage_messages (turn : Turn) (w : World) :
  accepted (text turn) (attached turn) ->
  messages (ui (handleSendMessage turn w))
  = (messages (ui w)
     ++ [ userMessageOf (text turn) (attached turn) w;
          mkMessage (JS.toString (settledAt turn + 1))
                    match settled turn with
                    | Resolved aiResponse => aiResponse
                    | Rejected _ => fallback
                    end
                    ai (settledAt turn) None ])%list.
Proof.
  intro H. unfold handleSendMessage. rewrite (start_accepted _ _ w H), resume_ui.
  cbn [messages]. unfold replyMessageOf. rewrite advance_to_now.
  rewrite (turnView_messages _ _ (advance_to_turnView _ _)).
  rewrite (turnView_messages _ _ (background_turnView _ _)). cbn [ui messages].
  now rewrite <- app_assoc.
Qed.

Lemma handleSendMessage_isLoading (turn : Turn) (w : World) :
  accepted (text turn) (attached turn) ->
  isLoading (ui (handleSendMessage turn w)) = false.
Proof.
  intro H. unfold handleSendMessage. now rewrite (start_accepted _ _ w H), resume_ui.
Qed.

End Segments.

(* ------------------------------------------------------------------ *)
(** ** What can run during an [await] *)

Section Interleaving.

Lemma occur_keeps_pending (e : Event) (w : World) :
  (forall settled, e <> Settles settled) ->
  isLoading (ui w) = true -> isLoading (ui (occur e w)) = true.
Proof.
  intros N L. destruct e as [words files|settled|b]; cbn [occur].
  - unfold handleSendMessage_start.
    destruct (JS.falsy (JS.trim words) && noFiles files); [exact L | reflexivity].
  - now elim (N settled).
  - now rewrite (turnView_isLoading _ _ (perform_turnView b w)).
Qed.

Lemma loop_keeps_pending (events : list (Z * Event)) (w : World) :
  noAnswer events ->
  isLoading (ui w) = true -> isLoading (ui (loop events w)) = true.
Proof.
  revert w; induction events as [|[t e] events IH]; intros w N L; [exact L|].
  unfold loop in *; cbn [fold_left fst snd]. apply IH.
  - intros t' settled H. apply (N t' settled). now right.
  - apply occur_keeps_pending.
    + intros settled ->. apply (N t settled). now left.
    + now rewrite (turnView_isLoading _ _ (advance_to_turnView t w)).
Qed.

Lemma noAnswer_firstn (k : nat) (events : list (Z * Event)) :
  noAnswer events -> noAnswer (firstn k events).
Proof.
  intros N t settled H. apply (N t settled).
  rewrite <- (firstn_skipn k events). apply in_or_app. now left.
Qed.

Lemma noAnswer_quiet (tasks : list (Z * Background)) : noAnswer (quiet tasks).
Proof.
  intros t settled H. unfold quiet in H. apply in_map_iff in H.
  destruct H as (task & E & _). discriminate.
Qed.

(** Clipboard tasks and timers run by [loop] are what [background] runs. *)
Lemma background_loop (tasks : list (Z * Background)) (w : World) :
  loop (quiet tasks) w = background tasks w.
Proof.
  revert w; induction tasks as [|task tasks IH]; intro w; [reflexivity|].
  unfold loop, background, quiet in *; cbn [map fold_left fst snd occur]. apply IH.
Qed.

(** No event takes a message out of the transcript. *)
Lemma occur_appends (e : Event) (w : World) :
  exists more, messages (ui (occur e w)) = (messages (ui w) ++ more)%list.
Proof.
  destruct e as [words files|settled|b]; cbn [occur].
  - unfold handleSendMessage_start.
    destruct (JS.falsy (JS.trim words) && noFiles files).
    + exists []. now rewrite app_nil_r.
    + eexists. reflexivity.
  - rewrite resume_ui. eexists. reflexivity.
  - exists []. now rewrite app_nil_r, (turnView_messages _ _ (perform_turnView b w)).
Qed.

Lemma loop_appends (events : list (Z * Event)) (w : World) :
  exists more, messages (ui (loop events w)) = (messages (ui w) ++ more)%list.
Proof.
  revert w; induction events as [|[t e] events IH]; intro w.
  - exists []. now rewrite app_nil_r.
  - unfold loop in *; cbn [fold_left fst snd].
    destruct (IH (occur e (advance_to t w))) as [more2 ->].
    destruct (occur_appends e (advance_to t w)) as [more1 ->].
    rewrite (turnView_messages _ _ (advance_to_turnView t w)).
    exists (more1 ++ more2)%list. now rewrite app_assoc.
Qed.

End Interleaving.

(* ------------------------------------------------------------------ *)
(** ** The turn controller *)

(** C1. A call whose trimmed text is not empty, or that carries at least
    one file, appends exactly two messages to the list, the first from
    the user and the second from the assistant; a call whose trimmed
    text is empty and whose files are absent or empty returns at the
    guard and leaves everything as it was. *)
Theorem submit_appends_two_or_nothing (turn : Turn) (w : World) :
  (accepted (text turn) (attached turn) ->
   exists first second,
     messages (ui (handleSendMessage turn w)) = (messages (ui w) ++ [first; second])%list
     /\ sender first = user /\ sender second = ai)
  /\ (blank (text turn) (attached turn) ->
      handleSendMessage_start (text turn) (attached turn) w = None
      /\ handleSendMessage turn w = w).
Proof.
  split; intro H.
  - rewrite (handleSendMessage_messages _ _ H).
    do 2 eexists. split; [reflexivity | split; reflexivity].
  - unfold handleSendMessage. rewrite (start_blank _ _ w H). now split.
Qed.

Lemma submit_appends_two_or_nothing_witness :
  (exists first second,
      messages (ui (handleSendMessage
                      (mkTurn "" (Some [mkFile "notes.txt"]) 10 [] 12 (Rejected (OtherValue "boom")))
                      (mount 10)))
      = ([] ++ [first; second])%list
      /\ sender first = user /\ sender second = ai)
  /\ handleSendMessage (mkTurn "   " (Some []) 10 [] 12 (Resolved "ok")) (mount 10) = mount 10.
Proof.
  split.
  - apply (proj1 (submit_appends_two_or_nothing
                    (mkTurn "" (Some [mkFile "notes.txt"]) 10 [] 12 (Rejected (OtherValue "boom")))
                    (mount 10))).
    right. exists [mkFile "notes.txt"]. split; [reflexivity | discriminate].
  - apply (proj2 (submit_appends_two_or_nothing
                    (mkTurn "   " (Some []) 10 [] 12 (Resolved "ok")) (mount 10))).
    split; [reflexivity | right; reflexivity].
Defined.

(** C2. When the awaited acquirer rejects, the assistant message the
    call appends has exactly the fixed fallback text as its content, and
    the committed state, the message list in particular, is the same
    for every value the acquirer may have rejected with: nothing of the
    error reaches a message. *)
Theorem failure_shows_fixed_fallback
    (words : string) (files : option (list File)) (sent done : Z)
    (during : list (Z * Background)) (error : Thrown) (w : World) :
  accepted words files ->
  let after e := handleSendMessage (mkTurn words files sent during done (Rejected e)) w in
  (exists first second,
      messages (ui (after error)) = (messages (ui w) ++ [first; second])%list
      /\ sender second = ai /\ content second = fallback)
  /\ forall other, ui (after other) = ui (after error).
Proof.
  intros H after. split.
  - unfold after. rewrite handleSendMessage_messages by exact H.
    do 2 eexists. split; [reflexivity | split; reflexivity].
  - intro other. unfold after, handleSendMessage; cbn [text attached settled meanwhile settledAt].
    rewrite (start_accepted _ _ w H). now rewrite !resume_ui.
Qed.

Lemma failure_shows_fixed_fallback_witness :
  let after e := handleSendMessage (mkTurn "ping" None 5 [] 9 (Rejected e)) (mount 5) in
  (exists first second,
      messages (ui (after (ErrorObject "ECONNRESET 10.0.0.7:443")))
      = (messages (ui (mount 5)) ++ [first; second])%list
      /\ sender second = ai /\ content second = fallback)
  /\ forall other, ui (after other) = ui (after (ErrorObject "ECONNRESET 10.0.0.7:443")).
Proof.
  apply (failure_shows_fixed_fallback "ping" None 5 9 []
           (ErrorObject "ECONNRESET 10.0.0.7:443") (mount 5)).
  left. vm_compute. discriminate.
Defined.

(** C3, as the claim states it, fails.  A call "first" is made at 0 and
    a call "second" at 10, while the first is awaited; both get past the
    guard, which does not read [isLoading].  At 20 the answer to the
    first call arrives and its [finally] clause clears the flag: the
    transcript is first, second, one, so the second call stands between
    the append of its user message and the append of its assistant
    message (which comes at 30), and [isLoading] is false. *)
Lemma earlier_answer_clears_pending :
  exists both firstDone final,
    overlapped "first" None (Resolved "one") "second" None (Resolved "two") 10 20 30 (mount 0)
    = Some (both, firstDone, final)
    /\ map content (messages (ui both)) = ["first"; "second"]
    /\ isLoading (ui both) = true
    /\ firstDone = loop [(20, Settles (Resolved "one"))] both
    /\ map content (messages (ui firstDone)) = ["first"; "second"; "one"]
    /\ isLoading (ui firstDone) = false
    /\ final = handleSendMessage_resume (Resolved "two") (advance_to 30 firstDone)
    /\ map content (messages (ui final)) = ["first"; "second"; "one"; "two"].
Proof.
  do 3 eexists. split; [reflexivity|].
  split; [reflexivity|]. split; [reflexivity|]. split; [reflexivity|].
  split; [reflexivity|]. split; [reflexivity|]. split; reflexivity.
Qed.

(** C3 (amended). For a call that gets past the guard, whatever runs
    while its acquirer is awaited (first segments of other calls,
    clipboard tasks, timers), provided no answer to another call
    arrives in that span ([noAnswer during]): [isLoading] is true in the
    state committed together with the user message and in every state
    the component goes through up to the answer, the user message being
    in the transcript all along; it is false in the state committed
    together with the assistant message, whether the acquirer resolved
    or rejected ([settled] is arbitrary). *)
Theorem pending_until_an_answer
    (words : string) (files : option (list File)) (during : list (Z * Event))
    (done : Z) (settled : Outcome) (w : World) :
  accepted words files ->
  noAnswer during ->
  exists suspended first,
    handleSendMessage_start words files w = Some suspended
    /\ sender first = user
    /\ messages (ui suspended) = (messages (ui w) ++ [first])%list
    /\ isLoading (ui suspended) = true
    /\ (forall k t,
           let reached := loop (firstn k during) suspended in
           (exists more, messages (ui reached) = (messages (ui w) ++ first :: more)%list)
           /\ isLoading (ui reached) = true
           /\ isLoading (ui (advance_to t reached)) = true)
    /\ exists second,
         let resumed :=
           handleSendMessage_resume settled (advance_to done (loop during suspended)) in
         sender second = ai
         /\ messages (ui resumed) = (messages (ui (loop during suspended)) ++ [second])%list
         /\ isLoading (ui resumed) = false.
Proof.
  intros H N. pose proof (start_accepted _ _ w H) as E.
  eexists; exists (userMessageOf words files w).
  split; [exact E|]. split; [reflexivity|]. split; [reflexivity|]. split; [reflexivity|].
  split.
  - intros k t reached.
    assert (isLoading (ui reached) = true) as L
        by (apply loop_keeps_pending; [now apply noAnswer_firstn | reflexivity]).
    split; [|split; [exact L|]].
    + destruct (loop_appends (firstn k during)
                  (mkWorld (now w)
                     (mkState (messages (ui w) ++ [userMessageOf words files w])%list
                              true (copiedId (ui w)))
                     (timers w) (console w))) as [more M].
      exists more. fold reached in M. rewrite M. cbn [ui messages].
      now rewrite <- app_assoc.
    + now rewrite (turnView_isLoading _ _ (advance_to_turnView t reached)).
  - eexists. cbv zeta. rewrite resume_ui. cbn [messages isLoading].
    split; [|split; [|reflexivity]].
    2: rewrite (turnView_messages _ _ (advance_to_turnView done _)); reflexivity.
    reflexivity.
Qed.

Lemma pending_until_an_answer_witness :
  let during := [ (120, Runs (ClipboardSettles "old" "7" None));
                  (900, Starts "second" None);
                  (2120, Runs TimePasses) ] in
  let w := mount 100 in
  accepted "ping" None
  /\ noAnswer during
  /\ exists suspended first,
       handleSendMessage_start "ping" None w = Some suspended
       /\ sender first = user
       /\ messages (ui suspended) = (messages (ui w) ++ [first])%list
       /\ isLoading (ui suspended) = true
       /\ (forall k t,
              let reached := loop (firstn k during) suspended in
              (exists more, messages (ui reached) = (messages (ui w) ++ first :: more)%list)
              /\ isLoading (ui reached) = true
              /\ isLoading (ui (advance_to t reached)) = true)
       /\ exists second,
            let resumed :=
              handleSendMessage_resume (Rejected (ErrorObject "offline"))
                (advance_to 2400 (loop during suspended)) in
            sender second = ai
            /\ messages (ui resumed) = (messages (ui (loop during suspended)) ++ [second])%list
            /\ isLoading (ui resumed) = false.
Proof.
  intros during w.
  assert (accepted "ping" None) as H by (left; vm_compute; discriminate).
  assert (noAnswer during) as N
      by (intros t settled [G|[G|[G|[]]]]; discriminate).
  split; [exact H|]. split; [exact N|].
  exact (pending_until_an_answer "ping" None during 2400
           (Rejected (ErrorObject "offline")) w H N).
Defined.

(** X17. With nothing but clipboard tasks and timers during the [await]
    (the case of a [Turn]), the transcript stands still as well: it is
    the old one and the user message in every state up to the answer,
    [isLoading] being true, and the old one and the two messages of the
    call after it, [isLoading] being false. *)
Theorem pending_spans_the_await (turn : Turn) (w : World) :
  accepted (text turn) (attached turn) ->
  exists suspended first,
    handleSendMessage_start (text turn) (attached turn) w = Some suspended
    /\ sender first = user
    /\ messages (ui suspended) = (messages (ui w) ++ [first])%list
    /\ isLoading (ui suspended) = true
    /\ (forall k t,
           let reached := background (firstn k (meanwhile turn)) suspended in
           messages (ui reached) = (messages (ui w) ++ [first])%list
           /\ isLoading (ui reached) = true
           /\ messages (ui (advance_to t reached)) = (messages (ui w) ++ [first])%list
           /\ isLoading (ui (advance_to t reached)) = true)
    /\ exists second,
         sender second = ai
         /\ messages (ui (handleSendMessage turn w))
            = (messages (ui w) ++ [first; second])%list
         /\ isLoading (ui (handleSendMessage turn w)) = false.
Proof.
  intro H. pose proof (start_accepted _ _ w H) as E.
  eexists; exists (userMessageOf (text turn) (attached turn) w).
  split; [exact E|]. split; [reflexivity|]. split; [reflexivity|]. split; [reflexivity|].
  split.
  - intros k t reached.
    pose proof (background_turnView (firstn k (meanwhile turn))
                  (mkWorld (now w)
                     (mkState (messages (ui w) ++ [userMessageOf (text turn) (attached turn) w])%list
                              true (copiedId (ui w)))
                     (timers w) (console w))) as B.
    fold reached in B.
    pose proof (advance_to_turnView t reached) as A. rewrite B in A.
    rewrite (turnView_messages _ _ B), (turnView_isLoading _ _ B),
      (turnView_messages _ _ A), (turnView_isLoading _ _ A).
    repeat split.
  - eexists. split; [|split].
    2: rewrite (handleSendMessage_messages _ _ H); reflexivity.
    + reflexivity.
    + now apply handleSendMessage_isLoading.
Qed.

(** C6. The user message a call stores has the submitted text itself as
    its content, leading and trailing white space included: the guard
    trims a copy, the message keeps the original. *)
Theorem stored_content_is_submitted_text
    (words : string) (files : option (list File)) (w suspended : World) :
  handleSendMessage_start words files w = Some suspended ->
  exists stored,
    messages (ui suspended) = (messages (ui w) ++ [stored])%list
    /\ sender stored = user
    /\ content stored = words.
Proof.
  unfold handleSendMessage_start.
  destruct (JS.falsy (JS.trim words) && noFiles files); [discriminate|].
  intros [= <-]. eexists. split; [reflexivity | split; reflexivity].
Qed.

Lemma stored_content_is_submitted_text_witness :
  exists stored,
    messages (ui (render [ setMessages (fun prev =>
                              (prev ++ [mkMessage "42" "  padded text  " user 42 None])%list);
                           setIsLoading true ] (mount 42)))
    = (messages (ui (mount 42)) ++ [stored])%list
    /\ sender stored = user
    /\ content stored = "  padded text  ".
Proof.
  apply (stored_content_is_submitted_text "  padded text  " None (mount 42)).
  reflexivity.
Defined.

Lemma pending_spans_the_await_witness :
  let turn := mkTurn "ping" None 100
                     [ (150, ClipboardSettles "old" "7" None); (2150, TimePasses) ]
                     2400 (Rejected (ErrorObject "offline")) in
  let w := mount 100 in
  accepted (text turn) (attached turn)
  /\ exists suspended first,
       handleSendMessage_start (text turn) (attached turn) w = Some suspended
       /\ sender first = user
       /\ messages (ui suspended) = (messages (ui w) ++ [first])%list
       /\ isLoading (ui suspended) = true
       /\ (forall k t,
              let reached := background (firstn k (meanwhile turn)) suspended in
              messages (ui reached) = (messages (ui w) ++ [first])%list
              /\ isLoading (ui reached) = true
              /\ messages (ui (advance_to t reached)) = (messages (ui w) ++ [first])%list
              /\ isLoading (ui (advance_to t reached)) = true)
       /\ exists second,
            sender second = ai
            /\ messages (ui (handleSendMessage turn w))
               = (messages (ui w) ++ [first; second])%list
            /\ isLoading (ui (handleSendMessage turn w)) = false.
Proof.
  intros turn w.
  assert (accepted (text turn) (attached turn)) as H by (left; vm_compute; discriminate).
  split; [exact H | exact (pending_spans_the_await turn w H)].
Defined.

(* ------------------------------------------------------------------ *)
(** ** Sessions: length and chronological order *)

Section Sessions.

Lemma ssorted_app (l1 l2 : list Z) :
  StronglySorted Z.le l1 -> StronglySorted Z.le l2 ->
  Forall (fun x => Forall (Z.le x) l2) l1 ->
  StronglySorted Z.le (l1 ++ l2)%list.
Proof.
  induction l1 as [|x l1 IH]; intros S1 S2 B; simpl; [exact S2|].
  apply StronglySorted_inv in S1 as [S1 Hx]. inversion_clear B as [|? ? Bx Bl].
  constructor; [now apply IH|].
  apply Forall_app; split; assumption.
Qed.

(** One accepted call, made at [sentAt turn]: two more messages, stamped
    with the two instants of the call. *)
Lemma handleSendMessage_timestamps (turn : Turn) (w : World) :
  accepted (text turn) (attached turn) ->
  map timestamp (messages (ui (handleSendMessage turn (advance_to (sentAt turn) w))))
  = (map timestamp (messages (ui w)) ++ [sentAt turn; settledAt turn])%list.
Proof.
  intro H. rewrite (handleSendMessage_messages _ _ H), map_app.
  now rewrite (turnView_messages _ _ (advance_to_turnView _ _)).
Qed.

Lemma session_invariant (turns : list Turn) :
  Forall (fun turn => accepted (text turn) (attached turn)) turns ->
  StronglySorted Z.le (instants turns) ->
  forall w,
    StronglySorted Z.le (map timestamp (messages (ui w))) ->
    Forall (fun x => Forall (Z.le x) (instants turns)) (map timestamp (messages (ui w))) ->
    List.length (messages (ui (session turns w)))
    = (List.length (messages (ui w)) + 2 * List.length turns)%nat
    /\ StronglySorted Z.le (map timestamp (messages (ui (session turns w)))).
Proof.
  induction turns as [|turn turns IH]; intros Acc Chrono w Sw Bw.
  - simpl. split; [lia | exact Sw].
  - inversion_clear Acc as [|? ? A Acc'].
    cbn [instants flat_map app] in Chrono, Bw. fold (instants turns) in Chrono, Bw.
    apply StronglySorted_inv in Chrono as [Chrono Sent].
    apply StronglySorted_inv in Chrono as [Chrono Done].
    inversion_clear Sent as [|? ? SentDone SentRest].
    set (w' := handleSendMessage turn (advance_to (sentAt turn) w)).
    change (session (turn :: turns) w) with (session turns w').
    assert (map timestamp (messages (ui w'))
            = (map timestamp (messages (ui w)) ++ [sentAt turn; settledAt turn])%list) as E
        by now apply handleSendMessage_timestamps.
    destruct (IH Acc' Chrono w') as [Len Ord].
    + rewrite E. apply ssorted_app; [exact Sw | |].
      * repeat constructor; exact SentDone.
      * eapply Forall_impl; [|exact Bw]. intros x Hx.
        inversion_clear Hx as [|? ? X1 X2]. inversion_clear X2 as [|? ? X2' _].
        repeat constructor; assumption.
    + rewrite E. apply Forall_app; split.
      * eapply Forall_impl; [|exact Bw]. intros x Hx.
        inversion_clear Hx as [|? ? _ X2]. now inversion_clear X2.
      * repeat constructor; assumption.
    + split; [|exact Ord]. rewrite Len.
      apply (f_equal (@List.length Z)) in E.
      rewrite length_app, !length_map in E. cbn [List.length] in *. lia.
Qed.

End Sessions.

(** C9. After N calls made one after the other from the freshly mounted
    component, each getting past the guard and each over before the next
    one starts (the instants sent, settled, sent, settled, ... are in
    chronological order), the message list has exactly 2N messages and
    their timestamps are in non-decreasing order. *)
Theorem session_length_and_order (turns : list Turn) (t0 : Z) :
  Forall (fun turn => accepted (text turn) (attached turn)) turns ->
  Sorted Z.le (instants turns) ->
  let transcript := messages (ui (session turns (mount t0))) in
  List.length transcript = (2 * List.length turns)%nat
  /\ Sorted Z.le (map timestamp transcript).
Proof.
  intros Acc Chrono transcript.
  assert (Relations_1.Transitive Z.le) as T by (intros x y z; apply Z.le_trans).
  destruct (session_invariant turns Acc (Sorted_StronglySorted T Chrono) (mount t0))
    as [Len Ord]; [constructor | constructor |].
  split; [exact Len | now apply StronglySorted_Sorted].
Qed.

Lemma session_length_and_order_witness :
  let turns :=
    [ simulatedTurn "what is rust" None (1 # 4) (3 # 5) 1000
                    [ (1200, ClipboardSettles "x" "1" None) ] 3100;
      mkTurn "" (Some [mkFile "a.png"]) 3100 [] 3100 (Rejected (ErrorObject "down")) ;
      simulatedTurn "thanks" None 0 0 9000 [] 10500 ] in
  let transcript := messages (ui (session turns (mount 0))) in
  List.length transcript = 6%nat /\ Sorted Z.le (map timestamp transcript).
Proof.
  intros turns.
  apply (session_length_and_order turns 0).
  - constructor; [left; vm_compute; discriminate|].
    constructor; [right; exists [mkFile "a.png"]; split; [reflexivity | discriminate]|].
    constructor; [left; vm_compute; discriminate | constructor].
  - vm_compute. repeat constructor; discriminate.
Defined.

(* ------------------------------------------------------------------ *)
(** ** Message ids *)

(** C5 fails on the code, on both variants of the component.  With the
    simulated acquirer: the first turn is answered at 3000, its
    assistant message gets the id of 3000 + 1, and a second turn sent at
    3001 gives the same id to its user message.  With the hosted
    acquirer, when the provider call throws at once: two turns in the
    same millisecond 7000 produce the ids of 7000 and 7001 twice. *)
Theorem next_turn_reuses_id :
  let apart :=
    session [ simulatedTurn "what is rust" None (1 # 4) (3 # 5) 1000 [] 3000;
              simulatedTurn "and go" None (1 # 4) (3 # 5) 3001 [] 5001 ] (mount 0) in
  let offline := fun _ : string => Hosted.Throws (ErrorObject "Not signed in") in
  let together :=
    session [ hostedTurn offline "what is rust" None 7000 [] 7000;
              hostedTurn offline "and go" None 7000 [] 7000 ] (mount 0) in
  map id (messages (ui apart)) = ["1000"; "3001"; "3001"; "5002"]
  /\ ~ NoDup (map id (messages (ui apart)))
  /\ map id (messages (ui together)) = ["7000"; "7001"; "7000"; "7001"]
  /\ ~ NoDup (map id (messages (ui together))).
Proof.
  cbn zeta.
  split; [reflexivity|]. split.
  - intro H. vm_compute in H.
    apply NoDup_cons_iff in H as [_ H]. apply NoDup_cons_iff in H as [H _].
    apply H. now left.
  - split; [reflexivity|].
    intro H. vm_compute in H.
    apply NoDup_cons_iff in H as [H _]. apply H. right. now left.
Qed.

(* ------------------------------------------------------------------ *)
(** ** The clipboard helper *)

(** C4, as the claim states it, fails: after a copy of "m1" at 0 and a
    copy of "m2" at 1500, two timers are pending, and at 2000, only
    500 ms after the second copy, the first one has reset [copiedId]. *)
Lemma stale_reset_fires_early :
  let w2 := twoCopies 0 1500 "abc" "m1" "def" "m2" (mount 0) in
  copiedId (ui w2) = Some "m2"
  /\ timers w2 = [2000; 3500]
  /\ copiedId (ui (advance_to 2000 w2)) <> Some "m2".
Proof. cbn zeta. split; [reflexivity | split; [reflexivity | discriminate]]. Qed.

(** C4 (amended). When a second copy succeeds before the reset timer of
    the first has fired (no earlier reset being pending), the first
    timer is not cancelled: both timers stay pending (they stack),
    [copiedId] is the new id only until the first timer fires, 2000 ms
    after the first copy, and from then on it is [null], although
    2000 ms have not passed since the second copy. *)
Theorem copy_timers_stack (t1 t2 : Z) (c1 id1 c2 id2 : string) (w : World) :
  timers w = [] ->
  t1 <= t2 < t1 + 2000 ->
  let w2 := twoCopies t1 t2 c1 id1 c2 id2 w in
  timers w2 = [t1 + 2000; t2 + 2000]
  /\ copiedId (ui w2) = Some id2
  /\ (forall t, t2 <= t < t1 + 2000 ->
                copiedId (ui (advance_to t w2)) = Some id2
                /\ timers (advance_to t w2) = [t1 + 2000; t2 + 2000])
  /\ (forall t, t1 + 2000 <= t -> copiedId (ui (advance_to t w2)) = None).
Proof.
  intros E range w2.
  assert (due t2 (t1 + 2000) = false) as D by (unfold due; lia).
  assert (w2 = mkWorld t2 (mkState (messages (ui w)) (isLoading (ui w)) (Some id2))
                       [t1 + 2000; t2 + 2000] (console w)) as ->.
  { unfold w2, twoCopies, background, perform, copyMessage, setTimeout, render, advance_to.
    cbn [fold_left fst snd now ui timers console commit apply messages isLoading copiedId].
    rewrite E. cbn [filter fold_left app].
    rewrite D. reflexivity. }
  split; [reflexivity|]. split; [reflexivity|]. split.
  - intros t Ht. unfold advance_to; cbn [ui timers filter].
    assert (due t (t1 + 2000) = false) as -> by (unfold due; lia).
    assert (due t (t2 + 2000) = false) as -> by (unfold due; lia).
    split; reflexivity.
  - intros t Ht. unfold advance_to; cbn [ui timers filter].
    assert (due t (t1 + 2000) = true) as -> by (unfold due; lia).
    destruct (due t (t2 + 2000)); reflexivity.
Qed.

Lemma copy_timers_stack_witness :
  let w2 := twoCopies 0 1500 "abc" "m1" "def" "m2" (mount 0) in
  timers w2 = [0 + 2000; 1500 + 2000]
  /\ copiedId (ui w2) = Some "m2"
  /\ (forall t, 1500 <= t < 0 + 2000 ->
                copiedId (ui (advance_to t w2)) = Some "m2"
                /\ timers (advance_to t w2) = [0 + 2000; 1500 + 2000])
  /\ (forall t, 0 + 2000 <= t -> copiedId (ui (advance_to t w2)) = None).
Proof.
  apply (copy_timers_stack 0 1500 "abc" "m1" "def" "m2" (mount 0)).
  - reflexivity.
  - lia.
Defined.

(* ------------------------------------------------------------------ *)
(** ** Supporting facts *)

Section Supporting.

(** The guard splits the calls in two: every call is accepted or blank. *)
Lemma accepted_or_blank (words : string) (files : option (list File)) :
  accepted words files \/ blank words files.
Proof.
  unfold accepted, blank.
  destruct (JS.trim words) as [|c rest]; [|left; left; discriminate].
  destruct files as [[|f fs]|].
  - right; split; [reflexivity | now right].
  - left; right. exists (f :: fs). split; [reflexivity | discriminate].
  - right; split; [reflexivity | now left].
Qed.

(** X18. A stream that breaks on the way ends in the [catch] clause of
    [getAIResponse] as well: what had been delivered is dropped, and the
    promise is rejected as it is when the call itself throws. *)
Lemma getAIResponse_stream_breaks
    (chat : string -> Hosted.ChatCall) (userMessage : string)
    (parts : list Hosted.Part) (error : Thrown) :
  chat userMessage = Hosted.Streams (fold_right Hosted.Yields (Hosted.Breaks error) parts) ->
  fst (Hosted.getAIResponse chat userMessage)
  = fst (Hosted.getAIResponse (fun _ => Hosted.Throws error) userMessage).
Proof.
  intro E. unfold Hosted.getAIResponse. rewrite E.
  assert (forall acc, Hosted.consume acc (fold_right Hosted.Yields (Hosted.Breaks error) parts)
                      = inl error) as C.
  { clear E. induction parts as [|part parts IH]; intro acc; simpl; [reflexivity | apply IH]. }
  now rewrite C.
Qed.

Lemma getAIResponse_stream_breaks_witness :
  fst (Hosted.getAIResponse
         (fun _ => Hosted.Streams
            (Hosted.Yields (Hosted.Chunk (Some "Hel"))
               (Hosted.Yields Hosted.Nullish (Hosted.Breaks (ErrorObject "socket hang up")))))
         "hey")
  = fst (Hosted.getAIResponse (fun _ => Hosted.Throws (ErrorObject "socket hang up")) "hey").
Proof.
  exact (getAIResponse_stream_breaks _ "hey" [Hosted.Chunk (Some "Hel"); Hosted.Nullish]
           (ErrorObject "socket hang up") eq_refl).
Defined.

(** What "the trimmed text is empty" comes to: white space only. *)
Lemma trim_empty_iff (s : string) :
  JS.trim s = "" <-> forallb JS.isWhiteSpace (list_ascii_of_string s) = true.
Proof.
  unfold JS.trim. induction s as [|c s IH]; simpl; [tauto|].
  destruct (JS.isWhiteSpace c) eqn:W; simpl; [exact IH|].
  split; [|discriminate].
  destruct (JS.trimEnd s); [rewrite W|]; discriminate.
Qed.

(** X19. The hosted variant end to end: the provider call throws, the
    transcript gets the user message and the fixed fallback; nothing of
    the value thrown, and nothing of the message [getAIResponse] wraps
    it in, reaches the transcript. *)
Lemma hosted_failure_reaches_fallback
    (chat : string -> Hosted.ChatCall) (words : string) (files : option (list File))
    (sent done : Z) (during : list (Z * Background)) (error : Thrown) (w : World) :
  accepted words files ->
  chat words = Hosted.Throws error ->
  messages (ui (handleSendMessage (hostedTurn chat words files sent during done) w))
  = (messages (ui w)
     ++ [ mkMessage (JS.toString (now w)) words user (now w) files;
          mkMessage (JS.toString (done + 1)) fallback ai done None ])%list.
Proof.
  intros H E. rewrite handleSendMessage_messages by exact H.
  unfold hostedTurn, Hosted.getAIResponse; cbn [text attached settled settledAt].
  now rewrite E.
Qed.

Lemma hosted_failure_reaches_fallback_witness :
  messages (ui (handleSendMessage
                  (hostedTurn (fun _ => Hosted.Throws (OtherValue "{ code: 429 }"))
                              "ping" None 100 [] 180)
                  (mount 100)))
  = [ mkMessage "100" "ping" user 100 None;
      mkMessage "181" fallback ai 180 None ].
Proof.
  apply (hosted_failure_reaches_fallback
           (fun _ => Hosted.Throws (OtherValue "{ code: 429 }"))
           "ping" None 100 180 [] (OtherValue "{ code: 429 }") (mount 100)).
  - left. vm_compute. discriminate.
  - reflexivity.
Defined.

Lemma toString_inj (a b : Z) : JS.toString a = JS.toString b -> a = b.
Proof.
  unfold JS.toString. intro H. apply DecimalZ.to_int_inj.
  assert (forall z, NilZero.int_of_string (NilZero.string_of_int (Z.to_int z))
                    = Some (Z.to_int z)) as R.
  { intro z. apply NilZero.isi; destruct z; simpl; try discriminate;
      intros [= E]; revert E; apply Unsigned.to_uint_nonnil. }
  pose proof (R a) as Ra. rewrite H, R in Ra. now injection Ra.
Qed.

(** X20. Inside one turn the offset of one keeps the two ids apart, as
    long as the clock has not gone backwards during the [await]. *)
Lemma ids_differ_within_turn (turn : Turn) (w : World) :
  accepted (text turn) (attached turn) ->
  now w <= settledAt turn ->
  exists first second,
    messages (ui (handleSendMessage turn w)) = (messages (ui w) ++ [first; second])%list
    /\ id first <> id second.
Proof.
  intros H Le. rewrite (handleSendMessage_messages _ _ H).
  do 2 eexists. split; [reflexivity|].
  cbn [id userMessageOf]. intro E. apply toString_inj in E. lia.
Qed.

Lemma ids_differ_within_turn_witness :
  exists first second,
    messages (ui (handleSendMessage
                    (mkTurn "ping" None 100 [] 100 (Resolved "pong")) (mount 100)))
    = (messages (ui (mount 100)) ++ [first; second])%list
    /\ id first <> id second.
Proof.
  apply (ids_differ_within_turn (mkTurn "ping" None 100 [] 100 (Resolved "pong")) (mount 100)).
  - left. vm_compute. discriminate.
  - cbn [now mount settledAt]. lia.
Defined.

End Supporting.

(* ------------------------------------------------------------------ *)
(** ** The rule chain of [simulateAIResponse], rule by rule *)

Section RuleChain.

Lemma includesP (s pat : string) : reflect (contains s pat) (JS.includes s pat).
Proof. apply iff_reflect. symmetry. apply includes_contains. Qed.

(** Lower-cased, the marker "[Think:" holds the letters "hi". *)
Lemma think_marker_holds_hi (s : string) :
  contains s "[Think:" -> contains (JS.toLowerCase s) "hi".
Proof.
  intros (before & after & ->). rewrite !toLowerCase_append.
  exists (JS.toLowerCase before ++ "[t"), ("nk:" ++ JS.toLowerCase after).
  now rewrite !append_assoc.
Qed.

Lemma pick_cases (rnd : Q) : In (Simulated.pick rnd) ("undefined" :: Simulated.responses).
Proof.
  unfold Simulated.pick, Simulated.element.
  destruct (_ <? 0); [now left|].
  destruct (nth_in_or_default
              (Z.to_nat (Qfloor (rnd * inject_Z (Z.of_nat (List.length Simulated.responses)))))
              Simulated.responses "undefined") as [H| ->]; [now right | now left].
Qed.

(** Whatever the draw, the last branch gives none of the six fixed
    replies. *)
Lemma generic_is_no_fixed_reply (rnd : Q) :
  ~ In (Simulated.pick rnd ++ Simulated.disclaimer)
       [ Simulated.greeting; Simulated.weatherReply; Simulated.searchReply;
         Simulated.thinkReply; Simulated.canvasReply; Simulated.voiceReply ].
Proof.
  pose proof (pick_cases rnd) as H. simpl in H.
  destruct H as [<-|[<-|[<-|[<-|[<-|[<-|[]]]]]]];
    intros [E|[E|[E|[E|[E|[E|[]]]]]]]; discriminate E.
Qed.

End RuleChain.

(** Closes one row of the rule table once the tests before it are
    decided. *)
Ltac rule_row :=
  cbn [orb]; repeat split; intros;
  repeat match goal with
         | H : _ /\ _ |- _ => destruct H
         | H : _ \/ _ |- _ => destruct H
         end;
  try contradiction; try discriminate; try tauto.

(** X1. The "[Think:" rule can never fire: an input holding that marker
    holds "hi" once lower-cased, so it is answered with the greeting,
    and no input and no draw make [simulateAIResponse] resolve to the
    think-mode text. *)
Theorem think_reply_unreachable (userMessage : string) (rndWait rndPick : Q) :
  (contains userMessage "[Think:" ->
   Simulated.settles (Simulated.simulateAIResponse userMessage rndWait rndPick)
   = Resolved Simulated.greeting)
  /\ Simulated.settles (Simulated.simulateAIResponse userMessage rndWait rndPick)
     <> Resolved Simulated.thinkReply.
Proof.
  unfold Simulated.simulateAIResponse; cbn [Simulated.settles]. split.
  - intro H. apply think_marker_holds_hi, includes_contains in H.
    unfold Simulated.reply. now rewrite H, orb_true_r.
  - intros [= E]. revert E. unfold Simulated.reply.
    pose proof (generic_is_no_fixed_reply rndPick) as G.
    destruct (includesP (JS.toLowerCase userMessage) "hello"); [discriminate|].
    destruct (includesP (JS.toLowerCase userMessage) "hi") as [|nohi]; [discriminate|].
    destruct (includesP (JS.toLowerCase userMessage) "weather"); [discriminate|].
    destruct (includesP userMessage "[Search:"); [discriminate|].
    destruct (includesP userMessage "[Think:") as [think|].
    { now elim nohi; apply think_marker_holds_hi. }
    destruct (includesP userMessage "[Canvas:"); [discriminate|].
    destruct (includesP userMessage "[Voice message"); [discriminate|].
    cbn [orb]. intro E. apply G. rewrite E. simpl. tauto.
Qed.

Lemma think_reply_unreachable_witness :
  Simulated.settles (Simulated.simulateAIResponse "[Think: why is the sky blue]" 0 0)
  = Resolved Simulated.greeting.
Proof.
  apply (proj1 (think_reply_unreachable "[Think: why is the sky blue]" 0 0)).
  now exists "", " why is the sky blue]".
Defined.

(** X2. For a draw of [Math.random()] in [0, 1), [simulateAIResponse]
    resolves to one of ten fixed texts: five fixed replies or one of the
    five acknowledgements with the disclaimer.  Nothing of the input
    is echoed. *)
Theorem reply_is_canned (userMessage : string) (rndWait rndPick : Q) :
  (0 <= rndPick)%Q -> (rndPick < 1)%Q ->
  exists reply,
    Simulated.settles (Simulated.simulateAIResponse userMessage rndWait rndPick)
    = Resolved reply
    /\ In reply cannedReplies.
Proof.
  intros lo hi. eexists. split; [reflexivity|].
  unfold Simulated.reply.
  destruct (includesP (JS.toLowerCase userMessage) "hello"); [simpl; tauto|].
  destruct (includesP (JS.toLowerCase userMessage) "hi") as [|nohi]; [simpl; tauto|].
  destruct (includesP (JS.toLowerCase userMessage) "weather"); [simpl; tauto|].
  destruct (includesP userMessage "[Search:"); [simpl; tauto|].
  destruct (includesP userMessage "[Think:") as [think|].
  { now elim nohi; apply think_marker_holds_hi. }
  destruct (includesP userMessage "[Canvas:"); [simpl; tauto|].
  destruct (includesP userMessage "[Voice message"); [simpl; tauto|].
  cbn [orb]. unfold cannedReplies. apply in_or_app. right.
  apply (in_map (fun generic => generic ++ Simulated.disclaimer)).
  now apply pick_in_range.
Qed.

Lemma reply_is_canned_witness :
  exists reply,
    Simulated.settles (Simulated.simulateAIResponse "repeat after me: secret" 0 (99 # 100))
    = Resolved reply
    /\ In reply cannedReplies.
Proof.
  apply (reply_is_canned "repeat after me: secret" 0 (99 # 100)); [discriminate | reflexivity].
Defined.






(** X5. The rule table of [simulateAIResponse], each row with the tests
    before it: the greeting exactly when the lower-cased input holds
    "hello" or "hi"; the weather reply exactly when it does not and
    holds "weather"; the search reply exactly when none of these and
    the input holds "[Search:"; the canvas reply exactly when none of
    these and it holds "[Canvas:"; the voice reply exactly when none of
    these and it holds "[Voice message". *)
Theorem rule_table (userMessage : string) (rndPick : Q) :
  let low := JS.toLowerCase userMessage in
  let greets := contains low "hello" \/ contains low "hi" in
  let reply := Simulated.reply userMessage rndPick in
  (reply = Simulated.greeting <-> greets)
  /\ (reply = Simulated.weatherReply <-> ~ greets /\ contains low "weather")
  /\ (reply = Simulated.searchReply <->
      ~ greets /\ ~ contains low "weather" /\ contains userMessage "[Search:")
  /\ (reply = Simulated.canvasReply <->
      ~ greets /\ ~ contains low "weather" /\ ~ contains userMessage "[Search:"
      /\ contains userMessage "[Canvas:")
  /\ (reply = Simulated.voiceReply <->
      ~ greets /\ ~ contains low "weather" /\ ~ contains userMessage "[Search:"
      /\ ~ contains userMessage "[Canvas:" /\ contains userMessage "[Voice message").
Proof.
  intros low greets reply. unfold reply, greets, low, Simulated.reply.
  pose proof (generic_is_no_fixed_reply rndPick) as G. simpl in G.
  destruct (includesP (JS.toLowerCase userMessage) "hello"); [rule_row|].
  destruct (includesP (JS.toLowerCase userMessage) "hi") as [|nohi]; [rule_row|].
  destruct (includesP (JS.toLowerCase userMessage) "weather"); [rule_row|].
  destruct (includesP userMessage "[Search:"); [rule_row|].
  destruct (includesP userMessage "[Think:") as [think|].
  { now elim nohi; apply think_marker_holds_hi. }
  destruct (includesP userMessage "[Canvas:"); [rule_row|].
  destruct (includesP userMessage "[Voice message"); [rule_row|].
  cbn [orb]. repeat split; intros; try tauto;
    match goal with E : _ = _ |- _ => elim G; rewrite E; tauto end.
Qed.

Lemma rule_table_witness :
  Simulated.reply "[Canvas: draw a Weather map]" 0 = Simulated.weatherReply
  /\ Simulated.reply "[Canvas: draw a map]" 0 = Simulated.canvasReply.
Proof.
  split.
  - apply (proj1 (proj2 (rule_table "[Canvas: draw a Weather map]" 0))).
    split; [intros [H|H]; revert H; absent|].
    now exists "[canvas: draw a ", " map]".
  - apply (proj1 (proj2 (proj2 (proj2 (rule_table "[Canvas: draw a map]" 0))))).
    split; [intros [H|H]; revert H; absent|].
    split; [absent|]. split; [absent|].
    now exists "", " draw a map]".
Defined.

(* ------------------------------------------------------------------ *)
(** ** [getAIResponse], every way it can end *)

(** X6. [getAIResponse] never resolves to the empty string and prints
    nothing when it resolves; when it rejects, it rejects with an
    [Error] whose message starts with "Failed to get AI response: ", and
    it has printed exactly one line, holding the value it caught. *)
Theorem getAIResponse_endings (chat : string -> Hosted.ChatCall) (userMessage : string) :
  match Hosted.getAIResponse chat userMessage with
  | (Resolved text, printed) => text <> "" /\ printed = []
  | (Rejected error, printed) =>
      exists cause detail,
        error = ErrorObject ("Failed to get AI response: " ++ detail)
        /\ error = Hosted.wrap cause
        /\ printed = [("AI API Error:", cause)]
  end.
Proof.
  unfold Hosted.getAIResponse.
  destruct (chat userMessage) as [error|response].
  - exists error. eexists. repeat split.
  - destruct (Hosted.consume "" response) as [error|fullResponse].
    + exists error. eexists. repeat split.
    + split; [|reflexivity]. now destruct fullResponse.
Qed.

(* ------------------------------------------------------------------ *)
(** ** The guard, and whole sessions *)

Section Transcripts.

Lemma let_through (words : string) (files : option (list File)) :
  JS.falsy (JS.trim words) && noFiles files = false -> accepted words files.
Proof.
  intro G. destruct (accepted_or_blank words files) as [A|B]; [exact A|].
  now rewrite (guard_blank _ _ B) in G.
Qed.

(** What one call of a session adds to the transcript. *)
Lemma turn_adds_exchange (turn : Turn) (w : World) :
  messages (ui (handleSendMessage turn (advance_to (sentAt turn) w)))
  = (messages (ui w) ++ exchange turn)%list.
Proof.
  unfold exchange, turnedAway.
  destruct (JS.falsy (JS.trim (text turn)) && noFiles (attached turn)) eqn:G.
  - unfold handleSendMessage, handleSendMessage_start. rewrite G, app_nil_r.
    apply (turnView_messages _ _ (advance_to_turnView _ _)).
  - rewrite (handleSendMessage_messages _ _ (let_through _ _ G)).
    now rewrite (turnView_messages _ _ (advance_to_turnView _ _)).
Qed.

End Transcripts.

(** X7. The guard turns a call away exactly when the text is white space
    only (the empty text included) and no file is attached: a missing
    list or an empty one. *)
Theorem guard_turns_away_iff (words : string) (files : option (list File)) (w : World) :
  handleSendMessage_start words files w = None
  <-> forallb JS.isWhiteSpace (list_ascii_of_string words) = true
      /\ (files = None \/ files = Some []).
Proof.
  rewrite <- trim_empty_iff. unfold handleSendMessage_start. split.
  - destruct (JS.trim words); [|discriminate].
    destruct files as [[|f fs]|]; try discriminate; auto.
  - intros [-> [-> | ->]]; reflexivity.
Qed.

Lemma guard_turns_away_iff_witness :
  handleSendMessage_start "   " (Some []) (mount 0) = None.
Proof.
  apply (proj2 (guard_turns_away_iff "   " (Some []) (mount 0))).
  split; [reflexivity | now right].
Defined.

(** X8. A session of calls made one after the other, blank ones among
    them, leaves the earlier messages where they were and appends, call
    by call and in order, nothing for a call turned away and the user
    message followed by the assistant message for the others. *)
Theorem session_transcript (turns : list Turn) (w : World) :
  messages (ui (session turns w)) = (messages (ui w) ++ flat_map exchange turns)%list.
Proof.
  revert w; induction turns as [|turn turns IH]; intro w.
  - simpl. now rewrite app_nil_r.
  - change (session (turn :: turns) w)
      with (session turns (handleSendMessage turn (advance_to (sentAt turn) w))).
    rewrite IH, turn_adds_exchange. cbn [flat_map]. now rewrite app_assoc.
Qed.

Section SessionInvariants.

(** A property of the transcript that every exchange keeps holds after
    the session. *)
Lemma session_keeps (P : list Message -> Prop) (turns : list Turn) :
  (forall l turn, P l -> P (l ++ exchange turn)%list) ->
  forall w, P (messages (ui w)) -> P (messages (ui (session turns w))).
Proof.
  intro step. induction turns as [|turn turns IH]; intros w H; [exact H|].
  change (session (turn :: turns) w)
    with (session turns (handleSendMessage turn (advance_to (sentAt turn) w))).
  apply IH. rewrite turn_adds_exchange. now apply step.
Qed.

Lemma exchange_cases (turn : Turn) :
  (turnedAway turn = true /\ exchange turn = [])
  \/ (accepted (text turn) (attached turn)
      /\ exists first second,
           exchange turn = [first; second]
           /\ sender first = user /\ content first = text turn /\ files first = attached turn
           /\ sender second = ai /\ files second = None).
Proof.
  unfold exchange. destruct (turnedAway turn) eqn:G; [now left|].
  right. split; [now apply let_through|].
  do 2 eexists. repeat split.
Qed.

Lemma ssorted_lt_nodup (l : list Z) : StronglySorted Z.lt l -> NoDup l.
Proof.
  induction 1 as [|x l _ IH Hx]; constructor; [|exact IH].
  intro H. rewrite Forall_forall in Hx. specialize (Hx x H). lia.
Qed.

Lemma session_ids (turns : list Turn) :
  Forall (fun turn => accepted (text turn) (attached turn)) turns ->
  forall w,
    map id (messages (ui (session turns w)))
    = (map id (messages (ui w)) ++ map JS.toString (idNumbers turns))%list.
Proof.
  induction 1 as [|turn turns A _ IH]; intro w.
  - simpl. now rewrite app_nil_r.
  - change (session (turn :: turns) w)
      with (session turns (handleSendMessage turn (advance_to (sentAt turn) w))).
    rewrite IH, turn_adds_exchange, map_app, <- app_assoc. f_equal.
    unfold exchange, turnedAway. now rewrite (guard_accepted _ _ A).
Qed.

End SessionInvariants.

(** X9. In the transcript of a session started on the fresh component the
    senders alternate, user first; a user message has text that is not
    blank or at least one file, and carries the text and the files of
    its call untouched; an assistant message carries no files. *)
Theorem transcript_is_wellformed (turns : list Turn) (t0 : Z) :
  let transcript := messages (ui (session turns (mount t0))) in
  (exists n, map sender transcript = List.concat (repeat [user; ai] n))
  /\ Forall (fun m => match sender m with
                      | user => accepted (content m) (files m)
                                /\ exists turn, In turn turns
                                                /\ content m = text turn
                                                /\ files m = attached turn
                      | ai => files m = None
                      end) transcript.
Proof.
  cbn zeta. split.
  - apply (session_keeps (fun l => exists n, map sender l = List.concat (repeat [user; ai] n))).
    + intros l turn [n E].
      destruct (exchange_cases turn) as [[_ ->] | (_ & u & a & -> & Su & _ & _ & Sa & _)].
      * exists n. now rewrite app_nil_r.
      * exists (S n). rewrite map_app, E. cbn [map]. rewrite Su, Sa.
        change (S n) with (1 + n)%nat. rewrite Nat.add_comm, repeat_app, concat_app.
        reflexivity.
    + now exists 0%nat.
  - assert (forall seen,
               incl seen turns ->
               forall w,
                 Forall (fun m => match sender m with
                                  | user => accepted (content m) (files m)
                                            /\ exists turn, In turn turns
                                                            /\ content m = text turn
                                                            /\ files m = attached turn
                                  | ai => files m = None
                                  end) (messages (ui w)) ->
                 Forall (fun m => match sender m with
                                  | user => accepted (content m) (files m)
                                            /\ exists turn, In turn turns
                                                            /\ content m = text turn
                                                            /\ files m = attached turn
                                  | ai => files m = None
                                  end) (messages (ui (session seen w)))) as K.
    { induction seen as [|turn seen IH]; intros Sub w H; [exact H|].
      change (session (turn :: seen) w)
        with (session seen (handleSendMessage turn (advance_to (sentAt turn) w))).
      apply IH; [intros x Hx; apply Sub; now right|].
      rewrite turn_adds_exchange. apply Forall_app. split; [exact H|].
      destruct (exchange_cases turn)
        as [[_ ->] | (A & u & a & -> & Su & Cu & Fu & Sa & Fa)]; [constructor|].
      constructor; [|constructor; [|constructor]].
      - rewrite Su, Cu, Fu. split; [exact A|].
        exists turn. split; [apply Sub; now left | split; reflexivity].
      - now rewrite Sa. }
    apply (K turns (incl_refl _)). constructor.
Qed.

(** X10. The ids of a session are all different when every call is
    answered no earlier than it is made and the next call is made at
    least two milliseconds after the answer: the numbers the ids are
    printed from, sent, settled + 1, sent, settled + 1, ..., are then
    strictly increasing. *)
Theorem ids_unique_when_spaced (turns : list Turn) (t0 : Z) :
  Forall (fun turn => accepted (text turn) (attached turn)) turns ->
  Sorted Z.lt (idNumbers turns) ->
  NoDup (map id (messages (ui (session turns (mount t0))))).
Proof.
  intros Acc Spaced. rewrite (session_ids turns Acc). cbn [mount ui messages map app].
  apply Finite.Injective_map_NoDup; [intros a b; apply toString_inj|].
  apply ssorted_lt_nodup, Sorted_StronglySorted; [|exact Spaced].
  intros x y z; apply Z.lt_trans.
Qed.

Lemma ids_unique_when_spaced_witness :
  NoDup (map id (messages (ui (session
           [ simulatedTurn "what is rust" None (1 # 4) (3 # 5) 1000 [] 3000;
             simulatedTurn "and go" None (1 # 4) (3 # 5) 3002 [] 5002 ] (mount 0))))).
Proof.
  apply (ids_unique_when_spaced
           [ simulatedTurn "what is rust" None (1 # 4) (3 # 5) 1000 [] 3000;
             simulatedTurn "and go" None (1 # 4) (3 # 5) 3002 [] 5002 ] 0).
  - constructor; [left; vm_compute; discriminate|].
    constructor; [left; vm_compute; discriminate | constructor].
  - vm_compute. repeat constructor.
Defined.

(* ------------------------------------------------------------------ *)
(** ** Calls that overlap *)

(** X11. [isLoading] is one flag, not a count: when a second call is
    made while the first is awaited, the answer to the first clears the
    flag although the second is still awaited, and the transcript ends
    with the two user messages followed by the two assistant messages,
    in the order the acquirers settled. *)
Theorem overlapping_calls_share_flag
    (words1 : string) (files1 : option (list File)) (r1 : Outcome)
    (words2 : string) (files2 : option (list File)) (r2 : Outcome)
    (t2 t3 t4 : Z) (w : World) :
  accepted words1 files1 -> accepted words2 files2 ->
  exists both firstDone final u1 u2 a1 a2,
    overlapped words1 files1 r1 words2 files2 r2 t2 t3 t4 w = Some (both, firstDone, final)
    /\ isLoading (ui both) = true
    /\ messages (ui firstDone) = (messages (ui w) ++ [u1; u2; a1])%list
    /\ isLoading (ui firstDone) = false
    /\ messages (ui final) = (messages (ui w) ++ [u1; u2; a1; a2])%list
    /\ map sender [u1; u2; a1; a2] = [user; user; ai; ai]
    /\ content u1 = words1 /\ content u2 = words2
    /\ content a1 = match r1 with Resolved said => said | Rejected _ => fallback end
    /\ content a2 = match r2 with Resolved said => said | Rejected _ => fallback end.
Proof.
  intros A1 A2. unfold overlapped.
  rewrite (start_accepted _ _ w A1).
  set (first := mkWorld _ _ _ _).
  rewrite (start_accepted _ _ (advance_to t2 first) A2).
  set (both := mkWorld _ _ _ _).
  set (firstDone := handleSendMessage_resume r1 (advance_to t3 both)).
  assert (messages (ui (advance_to t2 first))
          = (messages (ui w) ++ [userMessageOf words1 files1 w])%list) as M1
      by apply (turnView_messages _ _ (advance_to_turnView t2 first)).
  assert (messages (ui firstDone)
          = (messages (ui w)
             ++ [ userMessageOf words1 files1 w;
                  userMessageOf words2 files2 (advance_to t2 first);
                  replyMessageOf r1 (advance_to t3 both) ])%list) as M2.
  { unfold firstDone. rewrite resume_ui. cbn [messages].
    rewrite (turnView_messages _ _ (advance_to_turnView t3 both)).
    unfold both; cbn [ui messages]. rewrite M1, <- !app_assoc. reflexivity. }
  exists both, firstDone, (handleSendMessage_resume r2 (advance_to t4 firstDone)).
  exists (userMessageOf words1 files1 w), (userMessageOf words2 files2 (advance_to t2 first)),
    (replyMessageOf r1 (advance_to t3 both)), (replyMessageOf r2 (advance_to t4 firstDone)).
  split; [reflexivity|]. split; [reflexivity|]. split; [exact M2|].
  split; [unfold firstDone; now rewrite resume_ui|].
  split.
  { rewrite resume_ui. cbn [messages].
    rewrite (turnView_messages _ _ (advance_to_turnView t4 firstDone)), M2, <- app_assoc.
    reflexivity. }
  repeat split; now destruct r1, r2.
Qed.

Lemma overlapping_calls_share_flag_witness :
  exists both firstDone final u1 u2 a1 a2,
    overlapped "first" None (Resolved "one") "second" None (Resolved "two") 10 20 30 (mount 0)
    = Some (both, firstDone, final)
    /\ isLoading (ui both) = true
    /\ messages (ui firstDone) = (messages (ui (mount 0)) ++ [u1; u2; a1])%list
    /\ isLoading (ui firstDone) = false
    /\ messages (ui final) = (messages (ui (mount 0)) ++ [u1; u2; a1; a2])%list
    /\ map sender [u1; u2; a1; a2] = [user; user; ai; ai]
    /\ content u1 = "first" /\ content u2 = "second"
    /\ content a1 = "one" /\ content a2 = "two".
Proof.
  apply (overlapping_calls_share_flag "first" None (Resolved "one")
           "second" None (Resolved "two") 10 20 30 (mount 0));
    left; vm_compute; discriminate.
Defined.

(* ------------------------------------------------------------------ *)
(** ** The copied mark and its reset *)

Section CopiedMark.

Lemma fired_from_none (fired : list Z) (s : State) :
  copiedId s = None ->
  copiedId (fold_left (fun acc (_ : Z) => commit [setCopiedId None] acc) fired s) = None.
Proof.
  revert s; induction fired as [|d fired IH]; intros s H; [exact H|].
  cbn [fold_left]. now apply IH.
Qed.

(** What the timers do to the mark when the clock reaches [t]. *)
Lemma advance_to_copiedId (t : Z) (w : World) :
  copiedId (ui (advance_to t w))
  = match filter (due t) (timers w) with
    | [] => copiedId (ui w)
    | _ :: _ => None
    end.
Proof.
  unfold advance_to; cbn [ui].
  destruct (filter (due t) (timers w)) as [|d fired]; [reflexivity|].
  cbn [fold_left]. now apply fired_from_none.
Qed.

Lemma none_due_filter (t : Z) (l : list Z) :
  (forall d, In d l -> t < d) -> filter (due t) l = [].
Proof.
  induction l as [|d l IH]; intro H; [reflexivity|].
  cbn [filter]. assert (due t d = false) as -> by (unfold due; specialize (H d (or_introl eq_refl)); lia).
  apply IH. intros x Hx. apply H. now right.
Qed.

Lemma none_due_all_stay (t : Z) (l : list Z) :
  filter (due t) l = [] -> filter (fun d => negb (due t d)) l = l.
Proof.
  induction l as [|d l IH]; [reflexivity|]. cbn [filter].
  destruct (due t d); [discriminate|]. intro H. cbn [negb]. now rewrite IH.
Qed.

Lemma advance_to_resettable (t : Z) (w : World) : resettable w -> resettable (advance_to t w).
Proof.
  intro H. unfold resettable. rewrite advance_to_copiedId. cbn [advance_to timers].
  destruct (filter (due t) (timers w)) eqn:F; [|now left].
  now rewrite (none_due_all_stay _ _ F).
Qed.

Lemma perform_resettable (b : Background) (w : World) : resettable w -> resettable (perform b w).
Proof.
  destruct b as [c i [e|]|]; cbn; auto.
  intros _. right. cbn. now destruct (timers w).
Qed.

Lemma background_resettable (tasks : list (Z * Background)) (w : World) :
  resettable w -> resettable (background tasks w).
Proof.
  revert w; induction tasks as [|task tasks IH]; intros w H; [exact H|].
  unfold background in *; cbn [fold_left]. now apply IH, perform_resettable, advance_to_resettable.
Qed.

Lemma handleSendMessage_resettable (turn : Turn) (w : World) :
  resettable w -> resettable (handleSendMessage turn w).
Proof.
  intro H. unfold handleSendMessage, handleSendMessage_start.
  destruct (JS.falsy (JS.trim (text turn)) && noFiles (attached turn)); [exact H|].
  match goal with
  | |- resettable (handleSendMessage_resume _ (advance_to _ (background _ ?s))) =>
      assert (resettable (advance_to (settledAt turn) (background (meanwhile turn) s))) as R
          by (apply advance_to_resettable, background_resettable; exact H)
  end.
  revert R. generalize (advance_to (settledAt turn)
                          (background (meanwhile turn)
                             (render [ setMessages (fun prev =>
                                         (prev ++ [ {| id := JS.toString (now w);
                                                       content := text turn;
                                                       sender := user;
                                                       timestamp := now w;
                                                       files := attached turn |} ])%list);
                                       setIsLoading true ] w))).
  intros w' R. destruct (settled turn); exact R.
Qed.

Lemma run_resettable (steps : list Step) (w : World) : resettable w -> resettable (run steps w).
Proof.
  revert w; induction steps as [|step steps IH]; intros w H; [exact H|].
  unfold run in *; cbn [fold_left]. apply IH. destruct step.
  - now apply handleSendMessage_resettable, advance_to_resettable.
  - now apply perform_resettable, advance_to_resettable.
Qed.

End CopiedMark.

(** X12. After a successful copy the mark is on the copied message; once
    2000 ms have passed it is off, whatever other resets were pending;
    before that it stays on as long as no reset scheduled by an earlier
    copy comes due.  A failed clipboard write changes neither the state
    nor the timers. *)
Theorem copied_mark_lifecycle (words messageId : string) (w : World) :
  let copied := copyMessage words messageId None w in
  copiedId (ui copied) = Some messageId
  /\ (forall t, now w + 2000 <= t -> copiedId (ui (advance_to t copied)) = None)
  /\ (forall t, t < now w + 2000 ->
                (forall d, In d (timers w) -> t < d) ->
                copiedId (ui (advance_to t copied)) = Some messageId)
  /\ (forall error,
         ui (copyMessage words messageId (Some error) w) = ui w
         /\ timers (copyMessage words messageId (Some error) w) = timers w).
Proof.
  cbn zeta. split; [reflexivity|]. split; [|split].
  - intros t Ht. rewrite advance_to_copiedId.
    cbn [copyMessage setTimeout render timers now]. rewrite filter_app. cbn [filter].
    assert (due t (now w + 2000) = true) as -> by (unfold due; lia).
    now destruct (filter (due t) (timers w)).
  - intros t Ht Old. rewrite advance_to_copiedId.
    cbn [copyMessage setTimeout render timers now]. rewrite filter_app. cbn [filter].
    assert (due t (now w + 2000) = false) as -> by (unfold due; lia).
    now rewrite (none_due_filter _ _ Old).
  - intro error. split; reflexivity.
Qed.

Lemma copied_mark_lifecycle_witness :
  copiedId (ui (advance_to 6000 (copyMessage "abc" "17" None (mount 4000)))) = None
  /\ copiedId (ui (advance_to 5999 (copyMessage "abc" "17" None (mount 4000)))) = Some "17".
Proof.
  split.
  - apply (proj1 (proj2 (copied_mark_lifecycle "abc" "17" (mount 4000)))).
    cbn [now mount]. lia.
  - apply (proj1 (proj2 (proj2 (copied_mark_lifecycle "abc" "17" (mount 4000))))).
    + cbn [now mount]. lia.
    + intros d [].
Defined.

(** X13. However calls of [handleSendMessage] and clipboard tasks follow
    one another on the fresh component, the copied mark never sticks:
    whenever it is on, a reset is pending, and once the clock has passed
    every pending reset the mark is off. *)
Theorem copied_mark_never_sticks (steps : list Step) (t0 : Z) :
  let w := run steps (mount t0) in
  (copiedId (ui w) <> None -> timers w <> [])
  /\ (forall t, (forall d, In d (timers w) -> d <= t) ->
                copiedId (ui (advance_to t w)) = None).
Proof.
  intro w. assert (resettable w) as R by (apply run_resettable; now left).
  split.
  - intro On. now destruct R.
  - intros t Past. rewrite advance_to_copiedId.
    destruct (filter (due t) (timers w)) as [|d fired] eqn:F; [|reflexivity].
    destruct R as [Off|Pending]; [exact Off|].
    destruct (timers w) as [|d l] eqn:E; [now elim Pending|].
    cbn [filter] in F.
    assert (due t d = true) as D by (unfold due; specialize (Past d (or_introl eq_refl)); lia).
    now rewrite D in F.
Qed.

Lemma copied_mark_never_sticks_witness :
  let w := run [ Task 100 (ClipboardSettles "abc" "17" None);
                 Call (mkTurn "ping" None 200 [] 900 (Resolved "pong")) ] (mount 0) in
  timers w <> [] /\ copiedId (ui (advance_to 2100 w)) = None.
Proof.
  intro w. split.
  - apply (proj1 (copied_mark_never_sticks
                    [ Task 100 (ClipboardSettles "abc" "17" None);
                      Call (mkTurn "ping" None 200 [] 900 (Resolved "pong")) ] 0)).
    discriminate.
  - apply (proj2 (copied_mark_never_sticks
                    [ Task 100 (ClipboardSettles "abc" "17" None);
                      Call (mkTurn "ping" None 200 [] 900 (Resolved "pong")) ] 0)).
    intros d H. vm_compute in H. destruct H as [<-|[]]. lia.
Defined.

(* ------------------------------------------------------------------ *)
(** ** The acquirers inside the call *)

Section Answers.

Lemma append_nonempty_r (a b : string) : b <> "" -> a ++ b <> "".
Proof. destruct a; simpl; [auto | discriminate]. Qed.

Lemma reply_nonempty (userMessage : string) (rndPick : Q) :
  Simulated.reply userMessage rndPick <> "".
Proof.
  unfold Simulated.reply.
  repeat match goal with
         | |- (if ?b then _ else _) <> _ => destruct b; [discriminate|]
         end.
  apply append_nonempty_r. discriminate.
Qed.

Lemma hosted_text_nonempty (chat : string -> Hosted.ChatCall) (userMessage : string) :
  match fst (Hosted.getAIResponse chat userMessage) with
  | Resolved aiResponse => aiResponse
  | Rejected _ => fallback
  end <> "".
Proof.
  unfold Hosted.getAIResponse.
  destruct (chat userMessage) as [|response]; [discriminate|].
  destruct (Hosted.consume "" response) as [|[|c full]]; discriminate.
Qed.

End Answers.

(** X14. In either variant of the component the assistant message a call
    appends never has empty content, whatever the input, the draws and
    the behaviour of the provider: an empty stream is replaced by the
    fixed sentence, a failure by the fallback. *)
Theorem assistant_text_never_empty
    (chat : string -> Hosted.ChatCall) (words : string) (files : option (list File))
    (rndWait rndPick : Q) (sent done : Z) (during : list (Z * Background)) (w : World) :
  accepted words files ->
  (exists first second,
      messages (ui (handleSendMessage
                      (simulatedTurn words files rndWait rndPick sent during done) w))
      = (messages (ui w) ++ [first; second])%list
      /\ sender second = ai /\ content second <> "")
  /\ (exists first second,
         messages (ui (handleSendMessage (hostedTurn chat words files sent during done) w))
         = (messages (ui w) ++ [first; second])%list
         /\ sender second = ai /\ content second <> "").
Proof.
  intro H. split.
  - rewrite handleSendMessage_messages by exact H.
    do 2 eexists. split; [reflexivity|]. split; [reflexivity|].
    cbn [content simulatedTurn settled Simulated.settles Simulated.simulateAIResponse].
    apply reply_nonempty.
  - rewrite handleSendMessage_messages by exact H.
    do 2 eexists. split; [reflexivity|]. split; [reflexivity|].
    cbn [content hostedTurn settled]. apply hosted_text_nonempty.
Qed.

Lemma assistant_text_never_empty_witness :
  exists first second,
    messages (ui (handleSendMessage
                    (hostedTurn (fun _ => Hosted.Streams (Hosted.delivering [Hosted.Nullish]))
                                "ping" None 5 [] 9) (mount 5)))
    = (messages (ui (mount 5)) ++ [first; second])%list
    /\ sender second = ai /\ content second <> "".
Proof.
  assert (accepted "ping" None) as H by (left; vm_compute; discriminate).
  exact (proj2 (assistant_text_never_empty
                  (fun _ => Hosted.Streams (Hosted.delivering [Hosted.Nullish]))
                  "ping" None 0 0 5 9 [] (mount 5) H)).
Defined.

(* ------------------------------------------------------------------ *)
(** ** What is drawn *)

Section Drawing.

Lemma session_isLoading (turns : list Turn) (w : World) :
  isLoading (ui w) = false -> isLoading (ui (session turns w)) = false.
Proof.
  revert w; induction turns as [|turn turns IH]; intros w H; [exact H|].
  change (session (turn :: turns) w)
    with (session turns (handleSendMessage turn (advance_to (sentAt turn) w))).
  apply IH. unfold handleSendMessage, handleSendMessage_start.
  destruct (JS.falsy (JS.trim (text turn)) && noFiles (attached turn)).
  - now rewrite (turnView_isLoading _ _ (advance_to_turnView _ _)).
  - now rewrite resume_ui.
Qed.

Lemma session_silent_iff (turns : list Turn) (w : World) :
  messages (ui (session turns w)) = []
  <-> messages (ui w) = [] /\ Forall (fun turn => turnedAway turn = true) turns.
Proof.
  revert w; induction turns as [|turn turns IH]; intro w.
  - simpl. split; [now split | tauto].
  - change (session (turn :: turns) w)
      with (session turns (handleSendMessage turn (advance_to (sentAt turn) w))).
    rewrite IH, turn_adds_exchange. unfold exchange.
    destruct (turnedAway turn) eqn:G.
    + rewrite app_nil_r. split.
      * intros [E F]. split; [exact E | now constructor].
      * intros [E F]. split; [exact E | now inversion F].
    + split.
      * intros [E _]. now destruct (messages (ui w)).
      * intros [_ F]. inversion F; congruence.
Qed.

End Drawing.

(** X15. Clicking the copy button of a message of the thread, the
    clipboard write succeeding, draws the check icon on the rows whose
    key is the id of that message, the clicked one among them, and on
    no other row; once 2000 ms have passed every row shows the copy
    icon again. *)
Theorem copy_click_marks_rows (message : Message) (w : World) :
  In message (messages (ui w)) ->
  let clicked := onCopyClick message None w in
  (exists rows,
      thread (draw (ui clicked)) = Bubbles rows
      /\ map key rows = map id (messages (ui w))
      /\ (forall row, In row rows -> (icon row = checkIcon <-> key row = id message))
      /\ exists row, In row rows /\ icon row = checkIcon /\ shown row = content message)
  /\ forall t, now w + 2000 <= t ->
       exists rows,
         thread (draw (ui (advance_to t clicked))) = Bubbles rows
         /\ map key rows = map id (messages (ui w))
         /\ Forall (fun row => icon row = copyIcon) rows.
Proof.
  intros Hin clicked. split.
  - exists (map (bubble (Some (id message))) (messages (ui w))).
    split; [|split; [|split]].
    + unfold clicked, onCopyClick, draw; cbn.
      now destruct (messages (ui w)).
    + rewrite map_map. reflexivity.
    + intros row Hrow. apply in_map_iff in Hrow as (m & <- & _).
      cbn [bubble icon key isCopied].
      destruct (String.eqb_spec (id message) (id m)) as [E|N]; split; congruence.
    + exists (bubble (Some (id message)) message). split; [now apply in_map|].
      cbn [bubble icon shown isCopied]. now rewrite String.eqb_refl.
  - intros t Ht.
    assert (copiedId (ui (advance_to t clicked)) = None) as Off.
    { rewrite advance_to_copiedId. unfold clicked, onCopyClick.
      cbn [copyMessage setTimeout render timers now]. rewrite filter_app. cbn [filter].
      assert (due t (now w + 2000) = true) as -> by (unfold due; lia).
      now destruct (filter (due t) (timers w)). }
    assert (messages (ui (advance_to t clicked)) = messages (ui w)) as Same.
    { rewrite (turnView_messages _ _ (advance_to_turnView t clicked)).
      apply (turnView_messages _ _ (copyMessage_turnView _ _ _ w)). }
    exists (map (bubble None) (messages (ui w))). split; [|split].
    + unfold draw; cbn [thread]. rewrite Same, Off.
      now destruct (messages (ui w)).
    + rewrite map_map. reflexivity.
    + apply Forall_forall. intros row Hrow.
      now apply in_map_iff in Hrow as (m & <- & _).
Qed.

Lemma copy_click_marks_rows_witness :
  let message := mkMessage "1000" "hello" user 1000 None in
  let w := mkWorld 1500 (mkState [message; mkMessage "1201" "hi!" ai 1200 None] false None)
                   [] [] in
  In message (messages (ui w))
  /\ (exists rows,
         thread (draw (ui (onCopyClick message None w))) = Bubbles rows
         /\ map key rows = map id (messages (ui w))
         /\ (forall row, In row rows -> (icon row = checkIcon <-> key row = id message))
         /\ exists row, In row rows /\ icon row = checkIcon /\ shown row = content message)
  /\ forall t, now w + 2000 <= t ->
       exists rows,
         thread (draw (ui (advance_to t (onCopyClick message None w)))) = Bubbles rows
         /\ map key rows = map id (messages (ui w))
         /\ Forall (fun row => icon row = copyIcon) rows.
Proof.
  intros message w.
  assert (In message (messages (ui w))) as H by (left; reflexivity).
  split; [exact H | exact (copy_click_marks_rows message w H)].
Defined.

(** X16. After a session of completed calls on the fresh component the
    invitation to start a conversation is drawn exactly when every call
    was turned away by the guard; the "Thinking..." row is not drawn
    and the input box is not told to load. *)
Theorem session_screen (turns : list Turn) (t0 : Z) :
  let screen := draw (ui (session turns (mount t0))) in
  (thread screen = Invitation <-> Forall (fun turn => turnedAway turn = true) turns)
  /\ thinking screen = false
  /\ inputLoading screen = false.
Proof.
  intro screen.
  assert (isLoading (ui (session turns (mount t0))) = false) as L
      by now apply session_isLoading.
  split; [|split; exact L].
  unfold screen, draw; cbn [thread].
  pose proof (session_silent_iff turns (mount t0)) as S.
  destruct (messages (ui (session turns (mount t0)))) as [|m l].
  - split; [intros _; now apply S | reflexivity].
  - split; [discriminate|]. intro F.
    assert (m :: l = []) as E by (apply S; now split). discriminate E.
Qed.
